(** * The scraping scheduler of [src/scheduler.py], embedded and verified

    [YouTubeScraperScheduler] is a thin layer over the APScheduler library:
    it turns a job description into a trigger, registers one of four
    wrapper methods as the job function, and offers list / remove / pause /
    resume / run-now on top of the library's job store.

    Layout:
    - [Py]: the fragment of the Python runtime the module relies on
      (exceptions and their classes, [None], f-string rendering);
    - [APS]: the scheduling library as the module uses it (triggers, job
      store, executor bookkeeping), written after the library's own
      functions, which are named in each comment;
    - [Sched]: the methods of [YouTubeScraperScheduler], one definition per
      method, and the [run] branch of [main];
    - the theorems.

    Instants are integers counting microseconds on the UTC time line, and
    durations ([timedelta]) are integers counting microseconds. *)

From Stdlib Require Import ZArith Lia Ascii String.
From stdpp Require Import gmap strings list fin_maps pretty.

(* ===================================================================== *)
(** ** Python runtime *)
(* ===================================================================== *)
Module Py.

(** Exception classes that occur in the module and in the library calls it
    makes.  [KeyboardInterrupt] and [SystemExit] derive from
    [BaseException] only; every other class derives from [Exception]. *)
Inductive exc_class :=
| TypeError | AttributeError | ValueError
| JobLookupError | ConflictingIdError | MaxInstancesReachedError
| OtherException
| KeyboardInterrupt | SystemExit.

#[global] Instance exc_class_eq_dec : EqDecision exc_class :=
  ltac:(solve_decision).

Definition is_Exception (c : exc_class) : bool :=
  match c with
  | KeyboardInterrupt | SystemExit => false
  | _ => true
  end.

Record exn := Exn { exn_class : exc_class; exn_msg : string }.

(** The result of running a statement or call: it returns, it raises, or
    it never comes back (a loop that does not terminate). *)
Inductive outcome (A : Type) :=
| Ret (a : A)
| Raise (e : exn)
| Diverge.
Arguments Ret {A} a.
Arguments Raise {A} e.
Arguments Diverge {A}.

(** [f"{x}"] for a value that is a string or [None]. *)
Definition fmt (x : option string) : string :=
  match x with
  | Some s => s
  | None => "None"
  end.

(** Truthiness of a string-or-[None] value: [None] and [''] are falsy. *)
Definition truthy (x : option string) : bool :=
  match x with
  | Some s => negb (String.eqb s "")
  | None => false
  end.

(** [s.replace(' ', '_')]. *)
Fixpoint replace_space (s : string) : string :=
  match s with
  | EmptyString => EmptyString
  | String c r =>
      String (if Ascii.eqb c " "%char then "_"%char else c) (replace_space r)
  end.

End Py.
Export Py.

(* ===================================================================== *)
(** ** The scheduling library, as the module uses it *)
(* ===================================================================== *)
Module APS.

(** [datetime.timedelta(weeks=w, days=d, hours=h, minutes=m, seconds=s)],
    in microseconds. *)
Definition timedelta (weeks days hours minutes seconds : Z) : Z :=
  (((((weeks * 7 + days) * 24 + hours) * 60 + minutes) * 60 + seconds)
   * 1000000)%Z.

(** A trigger.  An interval trigger holds its period and its start date; a
    cron trigger holds the field expressions it was built from. *)
Inductive Trigger :=
| IntervalTrigger (interval : Z) (start_date : Z)
| CronTrigger (fields : gmap string string).

(** The keyword arguments of [IntervalTrigger] that make up the period. *)
Definition interval_units : list string :=
  ["weeks"; "days"; "hours"; "minutes"; "seconds"].

Definition kwarg (kw : gmap string Z) (k : string) : Z :=
  default 0%Z (kw !! k).

(** [IntervalTrigger] applied to the keyword arguments [kw] at instant [now]
    ([IntervalTrigger.__init__]).  The period is the [timedelta] of the
    five unit keywords, each defaulting to 0; a period of length zero is
    replaced by one second; with no [start_date] given the start date is
    [now + period].  A keyword that the constructor does not know raises
    [TypeError].  The constructor's further keywords ([start_date],
    [end_date], [timezone], [jitter]) are not modelled: a dict that uses
    them is treated like one with an unknown keyword. *)
Definition IntervalTrigger_init (kw : gmap string Z) (now : Z)
  : outcome Trigger :=
  if forallb (fun k => bool_decide (k ∈ interval_units)) (map fst (map_to_list kw))
  then
    let i := timedelta (kwarg kw "weeks") (kwarg kw "days") (kwarg kw "hours")
                       (kwarg kw "minutes") (kwarg kw "seconds") in
    let i := if (i =? 0)%Z then timedelta 0 0 0 0 1 else i in
    Ret (IntervalTrigger i (now + i)%Z)
  else
    Raise (Exn TypeError "__init__() got an unexpected keyword argument").

(** [ceil(a / b)] on integers. *)
Definition ceil_div (a b : Z) : Z := (- ((- a) / b))%Z.

Section Triggers.

(** The calendar arithmetic of cron triggers is the library's and is taken
    as given: [cron_error fields] is what [CronTrigger] raises on these fields,
    if anything, and [cron_fire fields previous now] is the result of its
    [get_next_fire_time]. *)
Context (cron_error : gmap string string -> option exn).
Context (cron_fire : gmap string string -> option Z -> Z -> option Z).

Definition CronTrigger_init (fields : gmap string string) : outcome Trigger :=
  match cron_error fields with
  | Some e => Raise e
  | None => Ret (CronTrigger fields)
  end.

(** [trigger.get_next_fire_time(previous_fire_time, now)].  For an interval
    trigger: the previous fire time plus the period; without a previous
    fire time, the start date if it is still ahead, else the first instant
    [start_date + k * period] that is not before [now]. *)
Definition get_next_fire_time (t : Trigger) (previous : option Z) (now : Z)
  : option Z :=
  match t with
  | IntervalTrigger i sd =>
      match previous with
      | Some p => Some (p + i)%Z
      | None =>
          if (now <? sd)%Z then Some sd
          else Some (sd + i * ceil_div (now - sd) i)%Z
      end
  | CronTrigger fields => cron_fire fields previous now
  end.

(** [Job._get_run_times(now)]: the scheduled instants from the job's next
    run time up to [now].  The loop of the library has no bound of its own;
    [fuel] bounds the number of iterations and [None] means the bound was
    reached. *)
Fixpoint get_run_times (fuel : nat) (t : Trigger) (next : option Z) (now : Z)
  : option (list Z) :=
  match next with
  | None => Some []
  | Some r =>
      if (r <=? now)%Z then
        match fuel with
        | O => None
        | S fuel' =>
            match get_run_times fuel' t (get_next_fire_time t (Some r) now) now with
            | Some rs => Some (r :: rs)
            | None => None
            end
        end
      else Some []
  end.

End Triggers.

(** *** Jobs and the scheduler state *)

(** The four fetch operations.  A job's callable is the wrapper method of
    the scheduler class for one of them. *)
Inductive Operation := ChannelFetch | VideoFetch | PlaylistFetch | SearchFetch.

(** A stored job: [func] and [args] are the callable and its positional
    arguments [[target, include_comments]]; a job is paused exactly when
    its [next_run_time] is [None].  The job's id is its key in the store. *)
Record Job := mkJob {
  func : Operation;
  args : option string * bool;
  name : string;
  trigger : Trigger;
  next_run_time : option Z
}.

Definition with_next_run_time (n : option Z) (j : Job) : Job :=
  mkJob (func j) (args j) (name j) (trigger j) n.

Record JobDefaults := mkDefaults {
  coalesce : bool;
  max_instances : nat;
  misfire_grace_time : option Z   (* seconds *)
}.

Inductive level := INFO | WARNING | ERROR.

(** What the program does to the outside world, in order. *)
Inductive event :=
| Log (l : level) (msg : string)
| Fetch (op : Operation) (target : option string) (include_comments : bool)
        (result : outcome string)            (* a call of the scraper, completed *)
| Missed (id : string) (run_time : Z)        (* run time skipped by the grace check *)
| Executed (id : string) (run_time : Z)      (* job function returned *)
| JobError (id : string) (run_time : Z)      (* job function raised *)
| Print (msg : string)
| Started
| Stopped.

(** A firing handed to the executor and not yet finished. *)
Record Firing := mkFiring {
  f_id : string;
  f_job : Job;
  f_run_times : list Z
}.

(** The scheduler object: its job defaults, the job store, the executor's
    count of running instances per job id ([_instances]), the firings in
    flight, and the trace of events so far. *)
Record State := mkState {
  defaults : JobDefaults;
  jobs : gmap string Job;
  instances : gmap string nat;
  running : list Firing;
  trace : list event
}.

Definition set_jobs (m : gmap string Job) (s : State) : State :=
  mkState (defaults s) m (instances s) (running s) (trace s).
Definition set_executor (i : gmap string nat) (r : list Firing) (s : State) : State :=
  mkState (defaults s) (jobs s) i r (trace s).
Definition set_trace (t : list event) (s : State) : State :=
  mkState (defaults s) (jobs s) (instances s) (running s) t.

(** *** Statements: state, exceptions, divergence *)

Definition M (A : Type) : Type := State -> outcome A * State.

Definition ret {A} (a : A) : M A := fun s => (Ret a, s).
Definition raise {A} (e : exn) : M A := fun s => (Raise e, s).
Definition diverge {A} : M A := fun s => (Diverge, s).
Definition bind {A B} (m : M A) (k : A -> M B) : M B := fun s =>
  match m s with
  | (Ret a, s') => k a s'
  | (Raise e, s') => (Raise e, s')
  | (Diverge, s') => (Diverge, s')
  end.

Declare Scope stmt_scope.
Delimit Scope stmt_scope with stmt.
Notation "'let!' x ':=' m 'in' k" := (bind m (fun x => k))
  (at level 10, x name, m at level 100, k at level 200) : stmt_scope.
Notation "m ';;;' k" := (bind m (fun _ => k))
  (at level 100, k at level 200, right associativity) : stmt_scope.
Local Open Scope stmt_scope.

(** [try: body  except Exception as e: handler(e)]. *)
Definition try_except {A} (body : M A) (handler : exn -> M A) : M A := fun s =>
  match body s with
  | (Raise e, s') =>
      if is_Exception (exn_class e) then handler e s' else (Raise e, s')
  | r => r
  end.

(** [try: body  except BaseException: handler]. *)
Definition try_except_base {A} (body : M A) (handler : exn -> M A) : M A := fun s =>
  match body s with
  | (Raise e, s') => handler e s'
  | r => r
  end.

Definition emit (e : event) : M unit := fun s =>
  (Ret tt, set_trace (trace s ++ [e]) s).

(** [for x in l: body(x)]. *)
Fixpoint for_each {A} (l : list A) (body : A -> M unit) : M unit :=
  match l with
  | [] => ret tt
  | x :: r => body x ;;; for_each r body
  end.

(** *** Job store operations of the scheduler *)

Section Library.

Context (cron_fire : gmap string string -> option Z -> Z -> option Z).

Definition job_lookup_error (id : string) : exn :=
  Exn JobLookupError ("No job by the id of " +:+ id +:+ " was found").

(** [scheduler.add_job(func, trigger=, args=, id=, name=)] on a running
    scheduler at instant [now]: the first run time is computed from the
    trigger; an id already in the store raises [ConflictingIdError]. *)
Definition add_job (f : Operation) (t : Trigger) (a : option string * bool)
    (id nm : string) (now : Z) : M unit := fun s =>
  match jobs s !! id with
  | Some _ =>
      (Raise (Exn ConflictingIdError
                ("Job identifier (" +:+ id +:+ ") conflicts with an existing job")), s)
  | None =>
      let job := mkJob f a nm t (get_next_fire_time cron_fire t None now) in
      (Ret tt, set_jobs (<[id := job]> (jobs s)) s)
  end.

(** [scheduler.remove_job(job_id)]. *)
Definition remove_job (id : string) : M unit := fun s =>
  match jobs s !! id with
  | None => (Raise (job_lookup_error id), s)
  | Some _ => (Ret tt, set_jobs (delete id (jobs s)) s)
  end.

(** [scheduler.pause_job(job_id)]: the job's next run time becomes [None]. *)
Definition pause_job (id : string) : M unit := fun s =>
  match jobs s !! id with
  | None => (Raise (job_lookup_error id), s)
  | Some j => (Ret tt, set_jobs (<[id := with_next_run_time None j]> (jobs s)) s)
  end.

(** [scheduler.resume_job(job_id)] at instant [now]: the next run time is
    recomputed from the trigger; a job whose trigger has no further run
    time is removed. *)
Definition resume_job (id : string) (now : Z) : M unit := fun s =>
  match jobs s !! id with
  | None => (Raise (job_lookup_error id), s)
  | Some j =>
      match get_next_fire_time cron_fire (trigger j) None now with
      | Some t =>
          (Ret tt, set_jobs (<[id := with_next_run_time (Some t) j]> (jobs s)) s)
      | None => remove_job id s
      end
  end.

(** [scheduler.get_job(job_id)]: the job, or [None]. *)
Definition get_job (id : string) : M (option Job) := fun s =>
  (Ret (jobs s !! id), s).

(** [scheduler.get_jobs()]; the order in which the store lists its jobs is
    not modelled. *)
Definition get_jobs : M (list (string * Job)) := fun s =>
  (Ret (map_to_list (jobs s)), s).

(** [jobstore.get_due_jobs(now)]: the jobs with a next run time at or
    before [now]. *)
Definition is_due (now : Z) (j : Job) : bool :=
  match next_run_time j with
  | Some t => (t <=? now)%Z
  | None => false
  end.

Definition get_due_jobs (now : Z) (s : State) : list (string * Job) :=
  List.filter (fun idj => is_due now (snd idj)) (map_to_list (jobs s)).

(** *** Executor *)

Definition running_instances (s : State) (id : string) : nat :=
  default 0 (instances s !! id).

(** [executor.submit_job(job, run_times)]: refused with
    [MaxInstancesReachedError] when the job already has [max_instances]
    running instances; otherwise the firing is handed to the pool and the
    job's instance count goes up by one. *)
Definition submit_job (id : string) (job : Job) (run_times : list Z) : M unit :=
  fun s =>
  if (max_instances (defaults s) <=? running_instances s id)%nat
  then (Raise (Exn MaxInstancesReachedError id), s)
  else (Ret tt, set_executor (<[id := S (running_instances s id)]> (instances s))
                             (running s ++ [mkFiring id job run_times]) s).

Definition last_run_time (run_times : list Z) : option Z := last run_times.

(** The update of the job after its run times were handed over: the next
    run time after the last of them, or removal when there is none. *)
Definition update_next_run (id : string) (job : Job) (r now : Z) : M unit :=
  fun s =>
  match get_next_fire_time cron_fire (trigger job) (Some r) now with
  | Some n =>
      (Ret tt, set_jobs (<[id := with_next_run_time (Some n) job]> (jobs s)) s)
  | None => remove_job id s
  end.

Definition submit_or_skip (id : string) (job : Job) (run_times : list Z)
  : M unit :=
  try_except_base (submit_job id job run_times)
    (fun e =>
       if bool_decide (exn_class e = MaxInstancesReachedError)
       then emit (Log WARNING
              ("Execution of job " +:+ id +:+
               " skipped: maximum number of running instances reached"))
       else emit (Log ERROR ("Error submitting job " +:+ id))).

(** The body of the loop of [scheduler._process_jobs] for one due job. *)
Definition process_job (fuel : nat) (now : Z) (idj : string * Job) : M unit :=
  fun s =>
  match get_run_times cron_fire fuel (trigger (snd idj))
                      (next_run_time (snd idj)) now with
  | None => diverge s
  | Some run_times =>
      let run_times :=
        if coalesce (defaults s)
        then match last run_times with Some r => [r] | None => [] end
        else run_times in
      match last run_times with
      | None => ret tt s
      | Some r =>
          (submit_or_skip (fst idj) (snd idj) run_times ;;;
           update_next_run (fst idj) (snd idj) r now) s
      end
  end.

(** One pass of the scheduler loop at instant [now]. *)
Definition process_jobs (fuel : nat) (now : Z) : M unit := fun s =>
  for_each (get_due_jobs now s) (process_job fuel now) s.

(** [run_job] in the worker: for each run time, in order, the grace check
    against the clock read at that moment ([clock k] for the k-th run
    time), then the job function. *)
Fixpoint run_job_from (call : Job -> M unit) (grace : option Z)
    (clock : nat -> Z) (k : nat) (id : string) (job : Job)
    (run_times : list Z) : M unit :=
  match run_times with
  | [] => ret tt
  | r :: rest =>
      (if match grace with
          | Some g => (timedelta 0 0 0 0 g <? clock k - r)%Z
          | None => false
          end
       then
         emit (Missed id r) ;;;
         emit (Log WARNING ("Run time of job " +:+ id +:+ " was missed"))
       else
         try_except_base
           (call job ;;; emit (Executed id r))
           (fun _ => emit (JobError id r))) ;;;
      run_job_from call grace clock (S k) id job rest
  end.

(** [_run_job_success]: the instance is given back; a count that reaches
    zero is dropped from the table. *)
Definition release_instance (i : nat) (id : string) : M unit := fun s =>
  let n := pred (running_instances s id) in
  (Ret tt, set_executor
             (if (n =? 0)%nat then delete id (instances s)
              else <[id := n]> (instances s))
             (take i (running s) ++ drop (S i) (running s)) s).

(** A worker finishes the [i]-th firing in flight: it runs the job for the
    firing's run times and then gives the instance back. *)
Definition finish_firing (call : Job -> M unit) (i : nat) (clock : nat -> Z)
  : M unit := fun s =>
  match running s !! i with
  | None => ret tt s
  | Some f =>
      (run_job_from call (misfire_grace_time (defaults s)) clock 0
                    (f_id f) (f_job f) (f_run_times f) ;;;
       release_instance i (f_id f)) s
  end.

End Library.

End APS.

(* ===================================================================== *)
(** ** [YouTubeScraperScheduler] *)
(* ===================================================================== *)
Module Sched.
Import APS.
Local Open Scope stmt_scope.

(** The [job_defaults] that [_setup_scheduler] passes to the scheduler. *)
Definition job_defaults : JobDefaults :=
  {| coalesce := false;
     max_instances := 3;
     misfire_grace_time := Some 3600%Z   (* 1 hour *) |}.

(** [_setup_scheduler]: the scheduler object it builds, over the jobs that
    the job store already holds. *)
Definition _setup_scheduler (stored : gmap string Job) : State :=
  mkState job_defaults stored ∅ [] [].

(** An entry of [scheduled_jobs] in the configuration file; a key that the
    entry does not have is [None]. *)
Record ConfigJob := mkConfigJob {
  cj_type : option string;
  cj_id : option string;
  cj_channel_id : option string;
  cj_video_id : option string;
  cj_playlist_id : option string;
  cj_query : option string;
  cj_include_comments : option bool;
  cj_schedule_type : option string;
  cj_interval : option (gmap string Z);
  cj_cron : option (gmap string string)
}.

(** An entry of the list that [list_jobs] returns. *)
Record JobInfo := mkJobInfo {
  info_id : string;
  info_name : string;
  info_next_run_time : option string;
  info_trigger : string
}.

Definition lift {A} (r : outcome A) : M A := fun s => (r, s).

(** [not d] for a dict-or-[None] value. *)
Definition dict_missing {V} (d : option (gmap string V)) : bool :=
  match d with
  | Some m => bool_decide (m = ∅)
  | None => true
  end.

(** The collaborators of the scheduler class: the scraper's four
    [run_*_scrape] methods (what a call returns, as printed, or raises),
    the library's cron arithmetic, [datetime.strftime] and [str] of a
    trigger. *)
Record Env := mkEnv {
  env_scraper : Operation -> option string -> bool -> outcome string;
  env_cron_error : gmap string string -> option exn;
  env_cron_fire : gmap string string -> option Z -> Z -> option Z;
  env_strftime : string -> Z -> string;
  env_str_trigger : Trigger -> string
}.

Section Scheduler.

Context (env : Env).
Local Abbreviation scraper := (env_scraper env).
Local Abbreviation cron_error := (env_cron_error env).
Local Abbreviation cron_fire := (env_cron_fire env).
Local Abbreviation strftime := (env_strftime env).
Local Abbreviation str_trigger := (env_str_trigger env).

Definition _parse_schedule (schedule_type : string)
    (interval : option (gmap string Z)) (cron : option (gmap string string))
    (now : Z) : M Trigger :=
  if String.eqb schedule_type "interval" then
    let interval :=
      if dict_missing interval then {[ "days" := 1%Z ]}   (* default to daily *)
      else default ∅ interval in
    lift (IntervalTrigger_init interval now)
  else if String.eqb schedule_type "cron" then
    let cron :=
      if dict_missing cron then {[ "hour" := "0"; "minute" := "0" ]}
      else default ∅ cron in
    lift (CronTrigger_init cron_error cron)
  else
    emit (Log ERROR ("Unknown schedule type: " +:+ schedule_type)) ;;;
    lift (IntervalTrigger_init {[ "days" := 1%Z ]} now).

Definition schedule_channel_scrape (channel_id : option string)
    (include_comments : bool) (schedule_type : string)
    (interval : option (gmap string Z)) (cron : option (gmap string string))
    (job_id : option string) (now : Z) : M string :=
  let job_id :=
    if truthy job_id then fmt job_id
    else "channel_" +:+ fmt channel_id +:+ "_" +:+ strftime "%Y%m%d%H%M%S" now in
  let! trigger := _parse_schedule schedule_type interval cron now in
  add_job cron_fire ChannelFetch trigger (channel_id, include_comments)
          job_id ("Channel Scrape: " +:+ fmt channel_id) now ;;;
  emit (Log INFO ("Scheduled channel scrape for " +:+ fmt channel_id +:+
                  " with job ID " +:+ job_id)) ;;;
  ret job_id.

Definition schedule_video_scrape (video_id : option string)
    (include_comments : bool) (schedule_type : string)
    (interval : option (gmap string Z)) (cron : option (gmap string string))
    (job_id : option string) (now : Z) : M string :=
  let job_id :=
    if truthy job_id then fmt job_id
    else "video_" +:+ fmt video_id +:+ "_" +:+ strftime "%Y%m%d%H%M%S" now in
  let! trigger := _parse_schedule schedule_type interval cron now in
  add_job cron_fire VideoFetch trigger (video_id, include_comments)
          job_id ("Video Scrape: " +:+ fmt video_id) now ;;;
  emit (Log INFO ("Scheduled video scrape for " +:+ fmt video_id +:+
                  " with job ID " +:+ job_id)) ;;;
  ret job_id.

Definition schedule_playlist_scrape (playlist_id : option string)
    (include_comments : bool) (schedule_type : string)
    (interval : option (gmap string Z)) (cron : option (gmap string string))
    (job_id : option string) (now : Z) : M string :=
  let job_id :=
    if truthy job_id then fmt job_id
    else "playlist_" +:+ fmt playlist_id +:+ "_" +:+ strftime "%Y%m%d%H%M%S" now in
  let! trigger := _parse_schedule schedule_type interval cron now in
  add_job cron_fire PlaylistFetch trigger (playlist_id, include_comments)
          job_id ("Playlist Scrape: " +:+ fmt playlist_id) now ;;;
  emit (Log INFO ("Scheduled playlist scrape for " +:+ fmt playlist_id +:+
                  " with job ID " +:+ job_id)) ;;;
  ret job_id.

(** With no job id given, the id is built from [query.replace(' ', '_')],
    which raises [AttributeError] when [query] is [None]. *)
Definition schedule_search_scrape (query : option string)
    (include_comments : bool) (schedule_type : string)
    (interval : option (gmap string Z)) (cron : option (gmap string string))
    (job_id : option string) (now : Z) : M string :=
  let! job_id :=
    if truthy job_id then ret (fmt job_id)
    else match query with
         | Some q =>
             ret ("search_" +:+ replace_space q +:+ "_" +:+
                  strftime "%Y%m%d%H%M%S" now)
         | None =>
             raise (Exn AttributeError
                        "'NoneType' object has no attribute 'replace'")
         end in
  let! trigger := _parse_schedule schedule_type interval cron now in
  add_job cron_fire SearchFetch trigger (query, include_comments)
          job_id ("Search Scrape: " +:+ fmt query) now ;;;
  emit (Log INFO ("Scheduled search scrape for '" +:+ fmt query +:+
                  "' with job ID " +:+ job_id)) ;;;
  ret job_id.

(** The body of the loop of [_add_scheduled_jobs_from_config] for one
    entry, with the clock reading [now]. *)
Definition add_scheduled_job (job : ConfigJob) (now : Z) : M unit :=
  let job_type := cj_type job in
  let job_id :=
    match cj_id job with
    | Some i => Some i
    | None => Some (fmt job_type +:+ "_" +:+ strftime "%Y%m%d%H%M%S" now)
    end in
  let schedule_type := default "interval" (cj_schedule_type job) in
  if bool_decide (job_type = Some "channel") then
    schedule_channel_scrape (cj_channel_id job)
      (default false (cj_include_comments job)) schedule_type
      (cj_interval job) (cj_cron job) job_id now ;;; ret tt
  else if bool_decide (job_type = Some "video") then
    schedule_video_scrape (cj_video_id job)
      (default true (cj_include_comments job)) schedule_type
      (cj_interval job) (cj_cron job) job_id now ;;; ret tt
  else if bool_decide (job_type = Some "playlist") then
    schedule_playlist_scrape (cj_playlist_id job)
      (default false (cj_include_comments job)) schedule_type
      (cj_interval job) (cj_cron job) job_id now ;;; ret tt
  else if bool_decide (job_type = Some "search") then
    schedule_search_scrape (cj_query job)
      (default false (cj_include_comments job)) schedule_type
      (cj_interval job) (cj_cron job) job_id now ;;; ret tt
  else
    emit (Log ERROR ("Unknown job type: " +:+ fmt job_type)).

(** [_add_scheduled_jobs_from_config]; [clock k] is the clock reading in
    the k-th iteration. *)
Fixpoint add_scheduled_jobs_from (k : nat) (scheduled_jobs : list ConfigJob)
    (clock : nat -> Z) : M unit :=
  match scheduled_jobs with
  | [] => ret tt
  | job :: rest =>
      add_scheduled_job job (clock k) ;;;
      add_scheduled_jobs_from (S k) rest clock
  end.

Definition _add_scheduled_jobs_from_config (scheduled_jobs : list ConfigJob)
    (clock : nat -> Z) : M unit :=
  add_scheduled_jobs_from 0 scheduled_jobs clock.

Definition start (scheduled_jobs : list ConfigJob) (clock : nat -> Z) : M unit :=
  emit Started ;;;
  emit (Log INFO "Scheduler started") ;;;
  _add_scheduled_jobs_from_config scheduled_jobs clock.

Definition shutdown : M unit :=
  emit Stopped ;;;
  emit (Log INFO "Scheduler shutdown").

(** A call [self.scraper.run_*_scrape(target, include_comments)]: the
    call and its outcome enter the trace when it is over. *)
Definition scraper_call (op : Operation) (target : option string)
    (include_comments : bool) : M string := fun s =>
  let r := scraper op target include_comments in
  (r, set_trace (trace s ++ [Fetch op target include_comments r]) s).

Definition _run_channel_scrape (channel_id : option string)
    (include_comments : bool) : M unit :=
  emit (Log INFO ("Running channel scrape for " +:+ fmt channel_id)) ;;;
  try_except
    (let! result := scraper_call ChannelFetch channel_id include_comments in
     emit (Log INFO ("Channel scrape completed: " +:+ result)))
    (fun e =>
       emit (Log ERROR ("Error in channel scrape for " +:+ fmt channel_id +:+
                        ": " +:+ exn_msg e))).

Definition _run_video_scrape (video_id : option string)
    (include_comments : bool) : M unit :=
  emit (Log INFO ("Running video scrape for " +:+ fmt video_id)) ;;;
  try_except
    (let! result := scraper_call VideoFetch video_id include_comments in
     emit (Log INFO ("Video scrape completed: " +:+ result)))
    (fun e =>
       emit (Log ERROR ("Error in video scrape for " +:+ fmt video_id +:+
                        ": " +:+ exn_msg e))).

Definition _run_playlist_scrape (playlist_id : option string)
    (include_comments : bool) : M unit :=
  emit (Log INFO ("Running playlist scrape for " +:+ fmt playlist_id)) ;;;
  try_except
    (let! result := scraper_call PlaylistFetch playlist_id include_comments in
     emit (Log INFO ("Playlist scrape completed: " +:+ result)))
    (fun e =>
       emit (Log ERROR ("Error in playlist scrape for " +:+ fmt playlist_id +:+
                        ": " +:+ exn_msg e))).

Definition _run_search_scrape (query : option string)
    (include_comments : bool) : M unit :=
  emit (Log INFO ("Running search scrape for '" +:+ fmt query +:+ "'")) ;;;
  try_except
    (let! result := scraper_call SearchFetch query include_comments in
     emit (Log INFO ("Search scrape completed: " +:+ result)))
    (fun e =>
       emit (Log ERROR ("Error in search scrape for '" +:+ fmt query +:+
                        "': " +:+ exn_msg e))).

(** The call of [job.func] on the unpacked [job.args]: the wrapper the
    job was created with, applied to the stored arguments. *)
Definition call_job (job : Job) : M unit :=
  match func job with
  | ChannelFetch => _run_channel_scrape (fst (args job)) (snd (args job))
  | VideoFetch => _run_video_scrape (fst (args job)) (snd (args job))
  | PlaylistFetch => _run_playlist_scrape (fst (args job)) (snd (args job))
  | SearchFetch => _run_search_scrape (fst (args job)) (snd (args job))
  end.

Definition job_info (idj : string * Job) : JobInfo :=
  {| info_id := fst idj;
     info_name := name (snd idj);
     info_next_run_time :=
       match next_run_time (snd idj) with
       | Some t => Some (strftime "%Y-%m-%d %H:%M:%S" t)
       | None => None
       end;
     info_trigger := str_trigger (trigger (snd idj)) |}.

Definition list_jobs : M (list JobInfo) :=
  let! js := get_jobs in
  ret (map job_info js).

Definition remove_job (job_id : string) : M bool :=
  try_except
    (APS.remove_job job_id ;;;
     emit (Log INFO ("Removed job " +:+ job_id)) ;;;
     ret true)
    (fun e =>
       emit (Log ERROR ("Error removing job " +:+ job_id +:+ ": " +:+ exn_msg e)) ;;;
       ret false).

Definition pause_job (job_id : string) : M bool :=
  try_except
    (APS.pause_job job_id ;;;
     emit (Log INFO ("Paused job " +:+ job_id)) ;;;
     ret true)
    (fun e =>
       emit (Log ERROR ("Error pausing job " +:+ job_id +:+ ": " +:+ exn_msg e)) ;;;
       ret false).

Definition resume_job (job_id : string) (now : Z) : M bool :=
  try_except
    (APS.resume_job cron_fire job_id now ;;;
     emit (Log INFO ("Resumed job " +:+ job_id)) ;;;
     ret true)
    (fun e =>
       emit (Log ERROR ("Error resuming job " +:+ job_id +:+ ": " +:+ exn_msg e)) ;;;
       ret false).

Definition run_job_now (job_id : string) : M bool :=
  try_except
    (let! job := get_job job_id in
     match job with
     | Some j =>
         (* Run the job function with its arguments *)
         call_job j ;;;
         emit (Log INFO ("Manually triggered job " +:+ job_id)) ;;;
         ret true
     | None =>
         emit (Log ERROR ("Job " +:+ job_id +:+ " not found")) ;;;
         ret false
     end)
    (fun e =>
       emit (Log ERROR ("Error running job " +:+ job_id +:+ ": " +:+ exn_msg e)) ;;;
       ret false).

(** The [run] action of [main]. *)
Definition main_run (scheduled_jobs : list ConfigJob) (job_id : option string)
    (clock : nat -> Z) : M unit :=
  if negb (truthy job_id) then
    emit (Print "Error: --job-id is required for 'run' action")
  else
    start scheduled_jobs clock ;;;
    let! success := run_job_now (fmt job_id) in
    (if success : bool
     then emit (Print ("Job " +:+ fmt job_id +:+ " triggered successfully"))
     else emit (Print ("Failed to trigger job " +:+ fmt job_id))) ;;;
    shutdown.

(** *** The system as a whole *)

(** What can happen to a scheduler object: the calls of the control
    surface, a pass of the scheduler loop, a worker finishing a firing, and
    a restart of the process over the persisted job store. *)
Inductive op :=
| Schedule (operation : Operation) (target : option string)
           (include_comments : bool) (schedule_type : string)
           (interval : option (gmap string Z)) (cron : option (gmap string string))
           (job_id : option string) (now : Z)
| LoadConfig (scheduled_jobs : list ConfigJob) (clock : nat -> Z)
| ListJobs
| RemoveJob (job_id : string)
| PauseJob (job_id : string)
| ResumeJob (job_id : string) (now : Z)
| RunJobNow (job_id : string)
| Tick (fuel : nat) (now : Z)
| Finish (i : nat) (clock : nat -> Z)
| Restart.

Definition schedule (operation : Operation) :=
  match operation with
  | ChannelFetch => schedule_channel_scrape
  | VideoFetch => schedule_video_scrape
  | PlaylistFetch => schedule_playlist_scrape
  | SearchFetch => schedule_search_scrape
  end.

Definition exec (o : op) (s : State) : State :=
  match o with
  | Schedule operation target ic st interval cron job_id now =>
      snd (schedule operation target ic st interval cron job_id now s)
  | LoadConfig scheduled_jobs clock => snd (start scheduled_jobs clock s)
  | ListJobs => snd (list_jobs s)
  | RemoveJob job_id => snd (remove_job job_id s)
  | PauseJob job_id => snd (pause_job job_id s)
  | ResumeJob job_id now => snd (resume_job job_id now s)
  | RunJobNow job_id => snd (run_job_now job_id s)
  | Tick fuel now => snd (process_jobs cron_fire fuel now s)
  | Finish i clock => snd (finish_firing call_job i clock s)
  | Restart => _setup_scheduler (jobs s)
  end.

Definition exec_all (ops : list op) (s : State) : State :=
  fold_left (fun s o => exec o s) ops s.


(** The number of firings of job [id] in flight. *)
Definition in_flight (s : State) (id : string) : nat :=
  length (List.filter (fun f => bool_decide (f_id f = id)) (running s)).

End Scheduler.

(** *** Concrete collaborators, for running the definitions *)

(** A scraper that fails on the video ["bad"] and succeeds elsewhere. *)
Definition demo_scraper (op : Operation) (target : option string)
    (include_comments : bool) : outcome string :=
  match target with
  | Some t =>
      if String.eqb t "bad"
      then Raise (Exn OtherException "quota exceeded")
      else Ret "{...}"
  | None => Ret "{...}"
  end.

(** Collaborators with no cron schedule in use and constant renderings. *)
Definition demo_env : Env :=
  {| env_scraper := demo_scraper;
     env_cron_error := fun _ => None;
     env_cron_fire := fun _ _ _ => None;
     env_strftime := fun _ _ => "20240101000000";
     env_str_trigger := fun _ => "trigger" |}.

End Sched.

(* ===================================================================== *)
(** ** Vocabulary of the properties *)
(* ===================================================================== *)
Module Props.
Import APS Sched.

(** The duration that the specification assigns to an interval schedule
    [(unit, value)], in microseconds. *)
Definition duration (unit : string) (value : Z) : Z :=
  (if String.eqb unit "seconds" then value * 1000000
   else if String.eqb unit "minutes" then value * 60 * 1000000
   else if String.eqb unit "hours" then value * 3600 * 1000000
   else if String.eqb unit "days" then value * 86400 * 1000000
   else if String.eqb unit "weeks" then value * 604800 * 1000000
   else 0)%Z.

(** A call of the scraper that comes back: it returns, or it raises an
    instance of [Exception]. *)
Definition comes_back {A} (r : outcome A) : Prop :=
  match r with
  | Ret _ => True
  | Raise e => is_Exception (exn_class e) = true
  | Diverge => False
  end.

(** What a wrapper does with the outcome [r] of its scraper call. *)
Definition wrapper_outcome (r : outcome string) : outcome unit :=
  match r with
  | Ret _ => Ret tt
  | Raise e => if is_Exception (exn_class e) then Ret tt else Raise e
  | Diverge => Diverge
  end.

(** The log lines of the four wrappers. *)
Definition running_msg (op : Operation) (target : option string) : string :=
  match op with
  | ChannelFetch => "Running channel scrape for " +:+ fmt target
  | VideoFetch => "Running video scrape for " +:+ fmt target
  | PlaylistFetch => "Running playlist scrape for " +:+ fmt target
  | SearchFetch => "Running search scrape for '" +:+ fmt target +:+ "'"
  end.

Definition completed_msg (op : Operation) (result : string) : string :=
  match op with
  | ChannelFetch => "Channel scrape completed: " +:+ result
  | VideoFetch => "Video scrape completed: " +:+ result
  | PlaylistFetch => "Playlist scrape completed: " +:+ result
  | SearchFetch => "Search scrape completed: " +:+ result
  end.

Definition error_msg (op : Operation) (target : option string) (e : exn) : string :=
  match op with
  | ChannelFetch =>
      "Error in channel scrape for " +:+ fmt target +:+ ": " +:+ exn_msg e
  | VideoFetch =>
      "Error in video scrape for " +:+ fmt target +:+ ": " +:+ exn_msg e
  | PlaylistFetch =>
      "Error in playlist scrape for " +:+ fmt target +:+ ": " +:+ exn_msg e
  | SearchFetch =>
      "Error in search scrape for '" +:+ fmt target +:+ "': " +:+ exn_msg e
  end.

(** The events that a wrapper adds to the trace around a scraper call with
    outcome [r]. *)
Definition wrapper_events (op : Operation) (target : option string)
    (include_comments : bool) (r : outcome string) : list event :=
  [Log INFO (running_msg op target);
   Fetch op target include_comments r] ++
  match r with
  | Ret result => [Log INFO (completed_msg op result)]
  | Raise e =>
      if is_Exception (exn_class e)
      then [Log ERROR (error_msg op target e)]
      else []
  | Diverge => []
  end.

(** The grace check of the worker for run time [r] at clock reading [now]. *)
Definition too_late (grace : option Z) (now r : Z) : bool :=
  match grace with
  | Some g => (timedelta 0 0 0 0 g <? now - r)%Z
  | None => false
  end.


(** Whether that worker returns: it does unless the wrapper, called for
    a run time that passed the grace check, never comes back. *)
Fixpoint run_job_outcome (res : outcome string) (grace : option Z)
    (clock : nat -> Z) (k : nat) (run_times : list Z) : outcome unit :=
  match run_times with
  | [] => Ret tt
  | r :: rest =>
      if too_late grace (clock k) r
      then run_job_outcome res grace clock (S k) rest
      else match wrapper_outcome res with
           | Diverge => Diverge
           | _ => run_job_outcome res grace clock (S k) rest
           end
  end.

(** The scraper calls recorded in a trace. *)
Definition is_fetch (e : event) : bool :=
  match e with
  | Fetch _ _ _ _ => true
  | _ => false
  end.
Definition fetches (t : list event) : list event := List.filter is_fetch t.

(** Relations between the state before and after a statement. *)
Definition same_jobs (s s' : State) : Prop := jobs s' = jobs s.
Definition same_executor (s s' : State) : Prop :=
  defaults s' = defaults s /\ instances s' = instances s /\
  running s' = running s.
Definition only_trace (s s' : State) : Prop := same_jobs s s' /\ same_executor s s'.

Definition preserves (P : State -> State -> Prop) {A} (m : M A) : Prop :=
  forall s, P s (snd (m s)).

(** A relation between states that every statement which only writes to
    the trace respects, and that composes along sequences of statements. *)
Class Frame (P : State -> State -> Prop) : Prop := {
  frame_refl : forall s, P s s;
  frame_trans : forall s1 s2 s3, P s1 s2 -> P s2 s3 -> P s1 s3;
  frame_trace : forall s t, P s (set_trace t s)
}.

(** A property of the job store that holds of every stored job. *)
Definition all_jobs (Q : Job -> Prop) (s : State) : Prop :=
  map_Forall (fun _ j => Q j) (jobs s).

(** Job [id] is in the store and paused. *)
Definition paused_in_store (id : string) (s : State) : Prop :=
  exists j, jobs s !! id = Some j /\ next_run_time j = None.

(** The operations that end a pause of job [id]: resuming it and removing
    it. *)
Definition resumes_or_removes (id : string) (o : op) : Prop :=
  match o with
  | ResumeJob j _ => j = id
  | RemoveJob j => j = id
  | _ => False
  end.

(** The executor's books are in order: the scheduler runs with the job
    defaults of [_setup_scheduler], the instance count of every job id is
    the number of its firings in flight, and that number is within the
    configured maximum. *)
Definition executor_ok (s : State) : Prop :=
  defaults s = Sched.job_defaults /\
  forall id, running_instances s id = in_flight s id /\
             (in_flight s id <= max_instances (defaults s))%nat.

(** [I] is kept from the state before to the state after. *)
Definition keeps (I : State -> Prop) (s s' : State) : Prop := I s -> I s'.

(** The name that the [schedule_*] methods give a job. *)
Definition name_prefix (op : Operation) : string :=
  match op with
  | ChannelFetch => "Channel Scrape: "
  | VideoFetch => "Video Scrape: "
  | PlaylistFetch => "Playlist Scrape: "
  | SearchFetch => "Search Scrape: "
  end.



(** A trigger whose fire times move forward and never run out: after any
    fire time there is a later one. *)
Definition always_advances
    (cron_fire : gmap string string -> option Z -> Z -> option Z)
    (t : Trigger) : Prop :=
  forall p now, exists q,
    get_next_fire_time cron_fire t (Some p) now = Some q /\ (p < q)%Z.


End Props.

(* ===================================================================== *)
(** ** The command line of the scheduler *)
(* ===================================================================== *)
Module Cli.
Import APS Sched.
Local Open Scope stmt_scope.

(** The parsed arguments of [main]; an option that was not given is
    [None] (and [--comments] is [False]). *)
Record Args := mkArgs {
  job_id : option string;
  channel : option string;
  video : option string;
  playlist : option string;
  search : option string;
  comments : bool;
  schedule_type : string;
  interval_unit : string;
  interval_value : Z;
  cron_minute : string;
  cron_hour : string;
  cron_day : string;
  cron_month : string;
  cron_day_of_week : string
}.


Section Main.

Context (env : Env).




(** The [remove] action of [main]. *)
Definition main_remove (scheduled_jobs : list ConfigJob) (args : Args)
    (clock : nat -> Z) : M unit :=
  if negb (truthy (job_id args)) then
    emit (Print "Error: --job-id is required for 'remove' action")
  else
    start env scheduled_jobs clock ;;;
    let! success := remove_job (fmt (job_id args)) in
    (if success : bool
     then emit (Print ("Job " +:+ fmt (job_id args) +:+ " removed successfully"))
     else emit (Print ("Failed to remove job " +:+ fmt (job_id args)))) ;;;
    shutdown.

(** The [pause] action of [main]. *)
Definition main_pause (scheduled_jobs : list ConfigJob) (args : Args)
    (clock : nat -> Z) : M unit :=
  if negb (truthy (job_id args)) then
    emit (Print "Error: --job-id is required for 'pause' action")
  else
    start env scheduled_jobs clock ;;;
    let! success := pause_job (fmt (job_id args)) in
    (if success : bool
     then emit (Print ("Job " +:+ fmt (job_id args) +:+ " paused successfully"))
     else emit (Print ("Failed to pause job " +:+ fmt (job_id args)))) ;;;
    shutdown.

(** The [resume] action of [main]; [now] is the clock reading inside
    [resume_job]. *)
Definition main_resume (scheduled_jobs : list ConfigJob) (args : Args)
    (clock : nat -> Z) (now : Z) : M unit :=
  if negb (truthy (job_id args)) then
    emit (Print "Error: --job-id is required for 'resume' action")
  else
    start env scheduled_jobs clock ;;;
    let! success := resume_job env (fmt (job_id args)) now in
    (if success : bool
     then emit (Print ("Job " +:+ fmt (job_id args) +:+ " resumed successfully"))
     else emit (Print ("Failed to resume job " +:+ fmt (job_id args)))) ;;;
    shutdown.

End Main.

End Cli.

(* ===================================================================== *)
(** ** [YouTubeScraper]: the [run_*_scrape] methods *)
(* ===================================================================== *)
Module Scraper.
Import APS.

(** What the scraper does to the outside world, in order. *)
Inductive sevent :=
| SLog (l : level) (msg : string)
| ApiVideosList (video_id : option string)     (* the API request for a video *)
| PytubeLookup (video_id : option string)      (* the pytube lookup of a video *)
| GetVideos (kind : Operation) (target : option string)
| GetComments (video_id : option string)
| SaveData (filename data_type : string)
| Sleep (seconds : Z).

(** The collaborators of the [run_*_scrape] methods and of
    [get_video_info]: whether an API client was built ([self.youtube]),
    the API request for a video together with the reading of its first
    item ([None] for an empty [items]), the pytube lookup, the three
    methods that list videos (a video is kept by its ['video_id']),
    [get_video_comments], [save_data] (the path it returns for a file name
    and a data type) and the configured [rate_limit_pause].  Each is
    taken as a function of its arguments: what a call does is fixed for
    the length of one scrape. *)
Record Backend := mkBackend {
  youtube : bool;
  api_video : option string -> outcome (option string);
  pytube_video : option string -> outcome string;
  get_channel_videos : option string -> outcome (list string);
  get_playlist_videos : option string -> outcome (list string);
  search_videos : option string -> outcome (list string);
  get_video_comments : option string -> outcome (list string);
  save_data : string -> string -> outcome string;
  rate_limit_pause : Z
}.

(** The record that [get_video_info] returns, by its source. *)
Inductive VideoData :=
| FromApi (data : string)
| FromPytube (data : string)
| ErrorRecord (video_id : option string) (error : string).

Record VideoResult := mkVideoResult {
  vr_video_id : option string;
  vr_video_file : string;
  vr_comments_file : option string;
  vr_comments_count : option nat
}.

(** The result of the channel, playlist and search scrapes: the target,
    ['videos_count'], ['videos_file'] and ['comments_files']. *)
Record ListResult := mkListResult {
  lr_target : option string;
  lr_videos_count : nat;
  lr_videos_file : string;
  lr_comments_files : list string
}.

(** Statements of the scraper: an outcome and the events on the way. *)
Definition W (A : Type) : Type := (outcome A * list sevent)%type.

Definition wret {A} (a : A) : W A := (Ret a, []).
Definition wraise {A} (e : exn) : W A := (Raise e, []).
Definition wbind {A B} (m : W A) (k : A -> W B) : W B :=
  match m with
  | (Ret a, es) => (fst (k a), es ++ snd (k a))
  | (Raise e, es) => (Raise e, es)
  | (Diverge, es) => (Diverge, es)
  end.
Definition tell (e : sevent) : W unit := (Ret tt, [e]).
(** A call of a collaborator: the call is recorded, then comes its
    outcome. *)
Definition call {A} (e : sevent) (r : outcome A) : W A := (r, [e]).

(** [try: body  except Exception as e: handler(e)]. *)
Definition wtry {A} (body : W A) (handler : exn -> W A) : W A :=
  match body with
  | (Raise e, es) =>
      if is_Exception (exn_class e)
      then (fst (handler e), es ++ snd (handler e))
      else (Raise e, es)
  | r => r
  end.

Declare Scope scraper_scope.
Delimit Scope scraper_scope with scraper.
Notation "'let!' x ':=' m 'in' k" := (wbind m (fun x => k))
  (at level 10, x name, m at level 100, k at level 200) : scraper_scope.
Notation "m ';;;' k" := (wbind m (fun _ => k))
  (at level 100, k at level 200, right associativity) : scraper_scope.
Local Open Scope scraper_scope.

Section Run.

Context (b : Backend).

(** The second half of [get_video_info]: the pytube lookup, and the error
    record when it fails. *)
Definition video_info_fallback (video_id : option string) : W VideoData :=
  wtry
    (let! data := call (PytubeLookup video_id) (pytube_video b video_id) in
     tell (SLog INFO ("Retrieved video info for " +:+ fmt video_id +:+ " via pytube")) ;;;
     wret (FromPytube data))
    (fun e =>
       tell (SLog ERROR ("Error getting video info for " +:+ fmt video_id +:+
                         ": " +:+ exn_msg e)) ;;;
       wret (ErrorRecord video_id (exn_msg e))).

Definition get_video_info (video_id : option string) : W VideoData :=
  if youtube b then
    let! found :=
      wtry
        (let! item := call (ApiVideosList video_id) (api_video b video_id) in
         match item with
         | Some data =>
             tell (SLog INFO ("Retrieved video info for " +:+ fmt video_id +:+
                              " via API")) ;;;
             wret (Some (FromApi data))
         | None => wret None
         end)
        (fun e =>
           tell (SLog ERROR ("API error when getting video info for " +:+
                             fmt video_id +:+ ": " +:+ exn_msg e)) ;;;
           tell (SLog INFO "Falling back to web scraping") ;;;
           wret None) in
    match found with
    | Some data => wret data
    | None => video_info_fallback video_id
    end
  else video_info_fallback video_id.

Definition run_video_scrape (video_id : option string) (include_comments : bool)
  : W VideoResult :=
  tell (SLog INFO ("Starting video scrape for " +:+ fmt video_id)) ;;;
  let! video_info := get_video_info video_id in
  let! video_file :=
    call (SaveData ("video_" +:+ fmt video_id +:+ "_info") "videos")
         (save_data b ("video_" +:+ fmt video_id +:+ "_info") "videos") in
  let result := mkVideoResult video_id video_file None None in
  let! result :=
    if include_comments then
      let! comments := call (GetComments video_id) (get_video_comments b video_id) in
      match comments with
      | [] => wret result
      | _ :: _ =>
          let! comments_file :=
            call (SaveData ("video_" +:+ fmt video_id +:+ "_comments") "comments")
                 (save_data b ("video_" +:+ fmt video_id +:+ "_comments") "comments") in
          wret (mkVideoResult video_id video_file (Some comments_file)
                              (Some (length comments)))
      end
    else wret result in
  tell (SLog INFO ("Completed video scrape for " +:+ fmt video_id)) ;;;
  wret result.

(** The loop over the videos that the channel, playlist and search scrapes
    share word for word: the comments of each video are fetched, saved
    when there are any, and the rate limit pause follows.
    [comments_files] is the list built so far. *)
Fixpoint comments_loop (videos : list string) (comments_files : list string)
  : W (list string) :=
  match videos with
  | [] => wret comments_files
  | video_id :: rest =>
      let! comments :=
        call (GetComments (Some video_id)) (get_video_comments b (Some video_id)) in
      let! comments_files :=
        match comments with
        | [] => wret comments_files
        | _ :: _ =>
            let! comments_file :=
              call (SaveData ("video_" +:+ video_id +:+ "_comments") "comments")
                   (save_data b ("video_" +:+ video_id +:+ "_comments") "comments") in
            wret (comments_files ++ [comments_file])
        end in
      (* Respect rate limits *)
      tell (Sleep (rate_limit_pause b)) ;;;
      comments_loop rest comments_files
  end.

Definition run_channel_scrape (channel_id : option string)
    (include_comments : bool) : W ListResult :=
  tell (SLog INFO ("Starting channel scrape for " +:+ fmt channel_id)) ;;;
  let! videos := call (GetVideos ChannelFetch channel_id)
                      (get_channel_videos b channel_id) in
  let! videos_file :=
    call (SaveData ("channel_" +:+ fmt channel_id +:+ "_videos") "videos")
         (save_data b ("channel_" +:+ fmt channel_id +:+ "_videos") "videos") in
  let! comments_files :=
    if include_comments && negb (bool_decide (videos = []))
    then comments_loop videos []
    else wret [] in
  tell (SLog INFO ("Completed channel scrape for " +:+ fmt channel_id)) ;;;
  wret (mkListResult channel_id (length videos) videos_file comments_files).

Definition run_playlist_scrape (playlist_id : option string)
    (include_comments : bool) : W ListResult :=
  tell (SLog INFO ("Starting playlist scrape for " +:+ fmt playlist_id)) ;;;
  let! videos := call (GetVideos PlaylistFetch playlist_id)
                      (get_playlist_videos b playlist_id) in
  let! videos_file :=
    call (SaveData ("playlist_" +:+ fmt playlist_id +:+ "_videos") "playlists")
         (save_data b ("playlist_" +:+ fmt playlist_id +:+ "_videos") "playlists") in
  let! comments_files :=
    if include_comments && negb (bool_decide (videos = []))
    then comments_loop videos []
    else wret [] in
  tell (SLog INFO ("Completed playlist scrape for " +:+ fmt playlist_id)) ;;;
  wret (mkListResult playlist_id (length videos) videos_file comments_files).

(** The file name of the search results is built with
    [query.replace(' ', '_')], which raises [AttributeError] when [query]
    is [None]. *)
Definition run_search_scrape (query : option string) (include_comments : bool)
  : W ListResult :=
  tell (SLog INFO ("Starting search scrape for '" +:+ fmt query +:+ "'")) ;;;
  let! videos := call (GetVideos SearchFetch query) (search_videos b query) in
  let! filename :=
    match query with
    | Some q => wret ("search_" +:+ replace_space q +:+ "_videos")
    | None => wraise (Exn AttributeError
                          "'NoneType' object has no attribute 'replace'")
    end in
  let! videos_file := call (SaveData filename "search")
                           (save_data b filename "search") in
  let! comments_files :=
    if include_comments && negb (bool_decide (videos = []))
    then comments_loop videos []
    else wret [] in
  tell (SLog INFO ("Completed search scrape for '" +:+ fmt query +:+ "'")) ;;;
  wret (mkListResult query (length videos) videos_file comments_files).

End Run.

(** Counting events. *)
Definition is_get_comments (e : sevent) : bool :=
  match e with GetComments _ => true | _ => false end.
Definition is_save (e : sevent) : bool :=
  match e with SaveData _ _ => true | _ => false end.
Definition is_sleep (e : sevent) : bool :=
  match e with Sleep _ => true | _ => false end.

(** A backend whose every call returns, for running the definitions. *)
Definition demo_backend : Backend :=
  {| youtube := true;
     api_video := fun _ => Raise (Exn OtherException "quota exceeded");
     pytube_video := fun _ => Ret "{...}";
     get_channel_videos := fun _ => Ret ["a"; "b"; "c"];
     get_playlist_videos := fun _ => Ret [];
     search_videos := fun _ => Ret ["a"];
     get_video_comments := fun v =>
       match v with
       | Some "b" => Ret []
       | _ => Ret ["nice"; "first"]
       end;
     save_data := fun filename data_type => Ret (data_type +:+ "/" +:+ filename);
     rate_limit_pause := 1 |}.

End Scraper.

(* ===================================================================== *)
(** ** Vocabulary of the further properties *)
(* ===================================================================== *)
Module Ids.
Import APS Sched.

(** The job id that a [schedule_*] method makes up when it is given none:
    the kind of the job, the target (for a search, the query with its
    spaces replaced) and the clock reading down to the second. *)
Definition id_prefix (op : Operation) : string :=
  match op with
  | ChannelFetch => "channel_"
  | VideoFetch => "video_"
  | PlaylistFetch => "playlist_"
  | SearchFetch => "search_"
  end.

Definition id_target (op : Operation) (target : string) : string :=
  match op with
  | SearchFetch => replace_space target
  | _ => target
  end.

Definition generated_id (env : Env) (op : Operation) (target : string) (now : Z)
  : string :=
  id_prefix op +:+ id_target op target +:+ "_" +:+
  env_strftime env "%Y%m%d%H%M%S" now.

(** The id that a [schedule_*] call uses: the one it is given, or the one
    it makes up. *)
Definition used_id (env : Env) (op : Operation) (target : string)
    (job_id : option string) (now : Z) : string :=
  if truthy job_id then fmt job_id else generated_id env op target now.

(** The [Scheduled ...] line that a [schedule_*] method logs at its end. *)
Definition scheduled_msg (op : Operation) (target : option string) (id : string)
  : string :=
  match op with
  | ChannelFetch => "Scheduled channel scrape for " +:+ fmt target +:+
                    " with job ID " +:+ id
  | VideoFetch => "Scheduled video scrape for " +:+ fmt target +:+
                  " with job ID " +:+ id
  | PlaylistFetch => "Scheduled playlist scrape for " +:+ fmt target +:+
                     " with job ID " +:+ id
  | SearchFetch => "Scheduled search scrape for '" +:+ fmt target +:+
                   "' with job ID " +:+ id
  end.

(** The id that a [schedule_*] call goes on with, for any target: the one
    it is given when that is not empty; else the one it makes up, which
    for a search without a query fails on [None.replace]. *)
Definition job_id_of (env : Env) (op : Operation) (target : option string)
    (job_id : option string) (now : Z) : outcome string :=
  if truthy job_id then Ret (fmt job_id)
  else match op, target with
       | SearchFetch, None =>
           Raise (Exn AttributeError "'NoneType' object has no attribute 'replace'")
       | SearchFetch, Some q => Ret (generated_id env SearchFetch q now)
       | _, _ => Ret (generated_id env op (fmt target) now)
       end.

(** The error of the library for an id that is taken. *)
Definition conflicting_id_error (id : string) : exn :=
  Exn ConflictingIdError
      ("Job identifier (" +:+ id +:+ ") conflicts with an existing job").

(** The [type] of a configuration entry for each operation, the key under
    which such an entry names its target, and the [include_comments] that
    the loader passes when the entry has none. *)
Definition type_name (op : Operation) : string :=
  match op with
  | ChannelFetch => "channel"
  | VideoFetch => "video"
  | PlaylistFetch => "playlist"
  | SearchFetch => "search"
  end.

Definition cj_target (op : Operation) (job : ConfigJob) : option string :=
  match op with
  | ChannelFetch => cj_channel_id job
  | VideoFetch => cj_video_id job
  | PlaylistFetch => cj_playlist_id job
  | SearchFetch => cj_query job
  end.

Definition default_include_comments (op : Operation) : bool :=
  match op with
  | VideoFetch => true
  | _ => false
  end.

(** One day, in microseconds. *)
Definition one_day : Z := timedelta 0 1 0 0 0.




(** Two jobs with the same schedule: they differ at most in their next
    run time. *)
Definition same_schedule (j j' : Job) : Prop :=
  func j' = func j /\ args j' = args j /\ name j' = name j /\ trigger j' = trigger j.

(** Every job of [s] was a job of [s0], with the same schedule. *)
Definition no_new_jobs (s0 s : State) : Prop :=
  forall id j', jobs s !! id = Some j' ->
    exists j, jobs s0 !! id = Some j /\ same_schedule j j'.

(** Every job of [s0] is a job of [s], unchanged. *)
Definition jobs_kept (s0 s : State) : Prop :=
  forall id j, jobs s0 !! id = Some j -> jobs s !! id = Some j.

(** The operations through which job ids enter the store. *)
Definition adds_jobs (o : op) : bool :=
  match o with
  | Schedule _ _ _ _ _ _ _ _ | LoadConfig _ _ => true
  | _ => false
  end.



End Ids.

(* ===================================================================== *)
(** ** Vocabulary of the properties of the scraper *)
(* ===================================================================== *)
Module ScraperProps.
Import APS Sched Scraper.

(** The videos for which [get_video_comments] returns a list that is not
    empty. *)
Definition has_comments (b : Backend) (video_id : string) : bool :=
  match get_video_comments b (Some video_id) with
  | Ret (_ :: _) => true
  | _ => false
  end.

(** The path under which the comments of a video are saved. *)
Definition comments_path (b : Backend) (video_id : string) : string :=
  match save_data b ("video_" +:+ video_id +:+ "_comments") "comments" with
  | Ret path => path
  | _ => ""
  end.

Definition count (p : sevent -> bool) (es : list sevent) : nat :=
  length (List.filter p es).

(** What the result [r] and the events [es] of a channel, playlist or
    search scrape that returned have to do with the videos that were
    listed: the count is their number; with [include_comments] the
    comments of every video are fetched, each followed by the pause, and
    the comments files are those of the videos that have comments, in
    order; without it no comments are fetched; one file is saved for the
    videos and one for each comments file. *)
Definition list_result_ok (b : Backend) (listed : outcome (list string))
    (include_comments : bool) (r : ListResult) (es : list sevent) : Prop :=
  exists videos,
    listed = Ret videos /\
    lr_videos_count r = length videos /\
    lr_comments_files r =
      (if include_comments
       then map (comments_path b) (List.filter (has_comments b) videos)
       else []) /\
    count is_get_comments es = (if include_comments then length videos else 0%nat) /\
    count is_sleep es = (if include_comments then length videos else 0%nat) /\
    count is_save es = S (length (lr_comments_files r)).

(** The scheduler's view of a scraper: what a call of a [run_*_scrape]
    method returns, as printed by [show_video] and [show_list], or
    raises. *)
Definition outcome_map {A B} (f : A -> B) (r : outcome A) : outcome B :=
  match r with
  | Ret a => Ret (f a)
  | Raise e => Raise e
  | Diverge => Diverge
  end.

Definition scraper_of (b : Backend) (show_video : VideoResult -> string)
    (show_list : ListResult -> string)
    (op : Operation) (target : option string) (include_comments : bool)
  : outcome string :=
  match op with
  | ChannelFetch => outcome_map show_list (fst (run_channel_scrape b target include_comments))
  | VideoFetch => outcome_map show_video (fst (run_video_scrape b target include_comments))
  | PlaylistFetch => outcome_map show_list (fst (run_playlist_scrape b target include_comments))
  | SearchFetch => outcome_map show_list (fst (run_search_scrape b target include_comments))
  end.

End ScraperProps.

(* ===================================================================== *)
(** ** [utils.handle_rate_limit] *)
(* ===================================================================== *)
Module Utils.
Import APS.

(** What one call of the decorated function does: it returns, it raises
    the API client's [HttpError] with a response status, it raises
    something else, or it never comes back. *)
Inductive attempt (A : Type) :=
| Returns (a : A)
| HttpError (status : Z) (msg : string)
| Fails (e : exn)
| Hangs.
Arguments Returns {A} a.
Arguments HttpError {A} status msg.
Arguments Fails {A} e.
Arguments Hangs {A}.

(** What the wrapper does: it returns, it lets the [HttpError] or the
    other exception of the function through, it raises its own
    [Exception], or it never comes back. *)
Inductive result (A : Type) :=
| Returned (a : A)
| RaisedHttp (status : Z) (msg : string)
| Raised (e : exn)
| Hung.
Arguments Returned {A} a.
Arguments RaisedHttp {A} status msg.
Arguments Raised {A} e.
Arguments Hung {A}.

Inductive uevent :=
| Call (k : nat)                   (* the k-th call of the function *)
| ULog (l : level) (msg : string)
| USleep (seconds : nat).

Definition max_retries : nat := 3.

Definition rate_limited (status : Z) : bool :=
  bool_decide (status ∈ [403%Z; 429%Z]).

Section Wrapper.

Context {A : Type}.
(** The name of the decorated function and what its successive calls do
    (all with the same arguments). *)
Context (name : string) (func : nat -> attempt A).

(** The loop [while retry_count < max_retries] of the wrapper, and what
    follows it; [left] is [max_retries - retry_count]. *)
Fixpoint wrapper_from (left retry_count : nat) : result A * list uevent :=
  match left with
  | O =>
      (Raised (Exn OtherException ("Max retries exceeded for " +:+ name)),
       [ULog ERROR ("Max retries exceeded for " +:+ name)])
  | S left' =>
      match func retry_count with
      | Returns a => (Returned a, [Call retry_count])
      | HttpError status msg =>
          if rate_limited status then   (* Rate limit exceeded *)
            let retry_count := S retry_count in
            let wait_time := (2 ^ retry_count)%nat in   (* Exponential backoff *)
            let r := wrapper_from left' retry_count in
            (fst r,
             [Call (pred retry_count);
              ULog WARNING ("Rate limit exceeded. Retrying in " +:+ pretty wait_time +:+
                            " seconds...");
              USleep wait_time] ++ snd r)
          else
            (RaisedHttp status msg,
             [Call retry_count; ULog ERROR ("HTTP error: " +:+ msg)])
      | Fails e =>
          if is_Exception (exn_class e)
          then (Raised e,
                [Call retry_count;
                 ULog ERROR ("Error in " +:+ name +:+ ": " +:+ exn_msg e)])
          else (Raised e, [Call retry_count])
      | Hangs => (Hung, [Call retry_count])
      end
  end.

(** A call of [handle_rate_limit(func)]. *)
Definition handle_rate_limit : result A * list uevent :=
  wrapper_from max_retries 0.

End Wrapper.

(** The calls made and the seconds slept, read off the events. *)
Definition calls (es : list uevent) : list nat :=
  omap (fun e => match e with Call k => Some k | _ => None end) es.
Definition sleeps (es : list uevent) : list nat :=
  omap (fun e => match e with USleep n => Some n | _ => None end) es.

(** A call that hits the rate limit, and what the wrapper does about the
    [k]-th call when it does. *)
Definition hits_limit {A} (a : attempt A) : bool :=
  match a with
  | HttpError status _ => rate_limited status
  | _ => false
  end.

Definition retry_events (k : nat) : list uevent :=
  [Call k;
   ULog WARNING ("Rate limit exceeded. Retrying in " +:+ pretty (2 ^ S k)%nat +:+
                 " seconds...");
   USleep (2 ^ S k)].

(** The first [n] calls of [func] all hit the rate limit. *)
Definition limited_until {A} (func : nat -> attempt A) (n : nat) : Prop :=
  forall k, (k < n)%nat -> hits_limit (func k) = true.

(** What the wrapper makes of a call that does not hit the rate limit. *)
Definition passed_on {A} (a : attempt A) : result A :=
  match a with
  | Returns x => Returned x
  | HttpError status msg => RaisedHttp status msg
  | Fails e => Raised e
  | Hangs => Hung
  end.

End Utils.

(* ===================================================================== *)
(** ** [YouTubeScraper.save_data] *)
(* ===================================================================== *)
Module Saving.
Import APS.

(** [str.lower] on the letters A to Z.  Strings are sequences of bytes
    here; the one use of [lower] below compares its result with ['json']
    and ['csv'], and no character outside A to Z is turned into a letter
    of these words. *)
Definition lower_char (c : ascii) : ascii :=
  let n := nat_of_ascii c in
  if (65 <=? n)%nat && (n <=? 90)%nat then ascii_of_nat (n + 32) else c.

Fixpoint lower (s : string) : string :=
  match s with
  | EmptyString => EmptyString
  | String c r => String (lower_char c) (lower r)
  end.

(** [os.path.join(a, b)] as [posixpath] has it. *)
Definition starts_with_slash (b : string) : bool :=
  match b with
  | String c _ => Ascii.eqb c "/"%char
  | EmptyString => false
  end.

Fixpoint ends_with_slash (a : string) : bool :=
  match a with
  | EmptyString => false
  | String c EmptyString => Ascii.eqb c "/"%char
  | String _ r => ends_with_slash r
  end.

Definition path_join (a b : string) : string :=
  if starts_with_slash b then b
  else if String.eqb a "" || ends_with_slash a then a +:+ b
  else a +:+ "/" +:+ b.

(** What [save_data] does to the file system and the log. *)
Inductive fevent :=
| MakeDirs (path : string)
| WriteJson (path : string)
| WriteCsv (path : string)
| FLog (l : level) (msg : string).

Section Save.

(** The scraper's [output_dir] and [output_format], the clock reading as
    [strftime("%Y%m%d_%H%M%S")] prints it, and what a call on the file
    system raises, if anything. *)
Context (output_dir output_format timestamp : string).
Context (io : fevent -> option exn).

Definition save_data (filename data_type : string) : outcome string * list fevent :=
  let filename := filename +:+ "_" +:+ timestamp in
  (* Create subdirectory for data type if it doesn't exist *)
  let data_dir := path_join output_dir data_type in
  match io (MakeDirs data_dir) with
  | Some e => (Raise e, [MakeDirs data_dir])
  | None =>
      if String.eqb (lower output_format) "json" then
        let file_path := path_join data_dir (filename +:+ ".json") in
        match io (WriteJson file_path) with
        | Some e => (Raise e, [MakeDirs data_dir; WriteJson file_path])
        | None =>
            (Ret file_path,
             [MakeDirs data_dir; WriteJson file_path;
              FLog INFO ("Data saved to " +:+ file_path)])
        end
      else if String.eqb (lower output_format) "csv" then
        let file_path := path_join data_dir (filename +:+ ".csv") in
        match io (WriteCsv file_path) with
        | Some e => (Raise e, [MakeDirs data_dir; WriteCsv file_path])
        | None =>
            (Ret file_path,
             [MakeDirs data_dir; WriteCsv file_path;
              FLog INFO ("Data saved to " +:+ file_path)])
        end
      else
        (Ret "",
         [MakeDirs data_dir;
          FLog ERROR ("Unsupported output format: " +:+ output_format)])
  end.

End Save.

(** The files written, read off the events. *)
Definition written (es : list fevent) : list string :=
  omap (fun e => match e with
                 | WriteJson p | WriteCsv p => Some p
                 | _ => None
                 end) es.

(** An output format that [save_data] knows. *)
Definition supported (output_format : string) : bool :=
  String.eqb (lower output_format) "json" || String.eqb (lower output_format) "csv".

(** [s] ends with [suffix]. *)
Definition ends_with (suffix s : string) : Prop := exists p, s = p +:+ suffix.


End Saving.

(* ===================================================================== *)
(** ** The trigger resolver *)
(* ===================================================================== *)
Import APS Sched Props.
Local Open Scope stmt_scope.

Lemma interval_units_accepted (unit : string) (value : Z) :
  unit ∈ interval_units ->
  forallb (fun k => bool_decide (k ∈ interval_units))
          (map fst (map_to_list ({[ unit := value ]} : gmap string Z))) = true.
Proof.
  intros Hu. rewrite map_to_list_singleton. simpl.
  rewrite bool_decide_eq_true_2; done.
Qed.

(** The period of the trigger built from the single keyword [unit = value]:
    the specified duration, or one second when that duration is zero. *)
Lemma interval_of_unit (unit : string) (value now : Z) :
  unit ∈ interval_units ->
  IntervalTrigger_init {[ unit := value ]} now =
  Ret (let i := if (value =? 0)%Z then 1000000%Z else duration unit value in
       IntervalTrigger i (now + i)).
Proof.
  intros Hu. unfold IntervalTrigger_init.
  rewrite interval_units_accepted by done.
  unfold interval_units in Hu.
  repeat (apply elem_of_cons in Hu as [-> | Hu]);
    [ .. | by apply elem_of_nil in Hu ];
    unfold kwarg, timedelta, duration;
    repeat (rewrite lookup_singleton_eq || rewrite lookup_singleton_ne by done);
    simpl; destruct (Z.eqb_spec value 0) as [-> | Hv]; simpl;
    try reflexivity;
    (match goal with
     | |- context [(?x =? 0)%Z] => destruct (Z.eqb_spec x 0) as [E | _]
     end; [ exfalso; lia | do 2 f_equal; lia ]).
Qed.

Lemma parse_schedule_missing_interval (env : Env) (interval : option (gmap string Z))
    (cron : option (gmap string string)) (now : Z) (s : State) :
  dict_missing interval = true ->
  _parse_schedule env "interval" interval cron now s =
  (Ret (IntervalTrigger 86400000000 (now + 86400000000)), s).
Proof.
  intros Hm. unfold _parse_schedule. simpl. rewrite Hm.
  unfold lift. by rewrite (interval_of_unit "days" 1 now) by set_solver.
Qed.






(* ===================================================================== *)
(** ** What a statement leaves alone *)
(* ===================================================================== *)

Section Frames.

Context (P : State -> State -> Prop) `{!Frame P}.

Lemma preserves_ret {A} (a : A) : preserves P (ret a).
Proof. intros s. apply frame_refl. Qed.

Lemma preserves_raise {A} (e : exn) : preserves P (raise e : M A).
Proof. intros s. apply frame_refl. Qed.

Lemma preserves_diverge {A} : preserves P (diverge : M A).
Proof. intros s. apply frame_refl. Qed.

Lemma preserves_lift {A} (r : outcome A) : preserves P (lift r).
Proof. intros s. apply frame_refl. Qed.

Lemma preserves_get_job (id : string) : preserves P (get_job id).
Proof. intros s. apply frame_refl. Qed.


Lemma preserves_bind {A B} (m : M A) (k : A -> M B) :
  preserves P m -> (forall a, preserves P (k a)) -> preserves P (bind m k).
Proof.
  intros Hm Hk s. unfold bind. specialize (Hm s).
  destruct (m s) as [[a | e | ] s1]; simpl in *; try done.
  eapply frame_trans; [ exact Hm | apply Hk ].
Qed.

Lemma preserves_try_except {A} (m : M A) (h : exn -> M A) :
  preserves P m -> (forall e, preserves P (h e)) -> preserves P (try_except m h).
Proof.
  intros Hm Hh s. unfold try_except. specialize (Hm s).
  destruct (m s) as [[a | e | ] s1]; simpl in *; try done.
  destruct (is_Exception (exn_class e)); simpl; try done.
  eapply frame_trans; [ exact Hm | apply Hh ].
Qed.

Lemma preserves_try_except_base {A} (m : M A) (h : exn -> M A) :
  preserves P m -> (forall e, preserves P (h e)) -> preserves P (try_except_base m h).
Proof.
  intros Hm Hh s. unfold try_except_base. specialize (Hm s).
  destruct (m s) as [[a | e | ] s1]; simpl in *; try done.
  eapply frame_trans; [ exact Hm | apply Hh ].
Qed.

Lemma preserves_for_each {A} (l : list A) (body : A -> M unit) :
  (forall x, x ∈ l -> preserves P (body x)) -> preserves P (for_each l body).
Proof.
  induction l as [ | x l IH]; intros Hb; simpl.
  - apply preserves_ret.
  - apply preserves_bind.
    + apply Hb. left.
    + intros _. apply IH. intros y Hy. apply Hb. by right.
Qed.

Lemma preserves_if {A} (b : bool) (m1 m2 : M A) :
  preserves P m1 -> preserves P m2 -> preserves P (if b then m1 else m2).
Proof. by destruct b. Qed.

(** Statements that only write to the trace. *)

Lemma preserves_emit (e : event) : preserves P (emit e).
Proof. intros s. apply frame_trace. Qed.

Lemma preserves_scraper_call (env : Env) op target ic :
  preserves P (scraper_call env op target ic).
Proof. intros s. apply frame_trace. Qed.

Lemma preserves_parse_schedule (env : Env) st interval cron now :
  preserves P (_parse_schedule env st interval cron now).
Proof.
  unfold _parse_schedule.
  repeat first [ apply preserves_if | apply preserves_bind; [ | intros ? ]
               | apply preserves_lift | apply preserves_emit ].
Qed.

Lemma preserves_call_job (env : Env) (job : Job) : preserves P (call_job env job).
Proof.
  unfold call_job, _run_channel_scrape, _run_video_scrape,
    _run_playlist_scrape, _run_search_scrape.
  destruct (func job);
    repeat first [ apply preserves_bind; [ | intros ? ]
                 | apply preserves_try_except; [ | intros ? ]
                 | apply preserves_emit | apply preserves_scraper_call ].
Qed.

Lemma preserves_run_job_from (env : Env) grace clock k id job run_times :
  preserves P (run_job_from (call_job env) grace clock k id job run_times).
Proof.
  revert k. induction run_times as [ | r rest IH]; intros k; simpl.
  - apply preserves_ret.
  - apply preserves_bind; [ | intros _; apply IH ].
    apply preserves_if.
    + apply preserves_bind; [ | intros _ ]; apply preserves_emit.
    + apply preserves_try_except_base; [ | intros _; apply preserves_emit ].
      apply preserves_bind; [ apply preserves_call_job | intros _; apply preserves_emit ].
Qed.

End Frames.

Lemma same_jobs_refl s : same_jobs s s.
Proof. done. Qed.
Lemma same_jobs_trans s1 s2 s3 : same_jobs s1 s2 -> same_jobs s2 s3 -> same_jobs s1 s3.
Proof. unfold same_jobs. congruence. Qed.
Lemma same_jobs_trace s t : same_jobs s (set_trace t s).
Proof. done. Qed.

Lemma same_executor_refl s : same_executor s s.
Proof. done. Qed.
Lemma same_executor_trans s1 s2 s3 :
  same_executor s1 s2 -> same_executor s2 s3 -> same_executor s1 s3.
Proof. unfold same_executor. intros (? & ? & ?) (? & ? & ?). repeat split; congruence. Qed.
Lemma same_executor_trace s t : same_executor s (set_trace t s).
Proof. done. Qed.
Lemma same_executor_jobs s m : same_executor s (set_jobs m s).
Proof. done. Qed.

Lemma only_trace_refl s : only_trace s s.
Proof. done. Qed.
Lemma only_trace_trans s1 s2 s3 : only_trace s1 s2 -> only_trace s2 s3 -> only_trace s1 s3.
Proof.
  intros [? ?] [? ?]. split; [ by eapply same_jobs_trans | by eapply same_executor_trans ].
Qed.
Lemma only_trace_trace s t : only_trace s (set_trace t s).
Proof. done. Qed.

#[global] Instance same_jobs_frame : Frame same_jobs.
Proof. split; [ apply same_jobs_refl | apply same_jobs_trans | apply same_jobs_trace ]. Qed.

#[global] Instance same_executor_frame : Frame same_executor.
Proof.
  split; [ apply same_executor_refl | apply same_executor_trans
         | apply same_executor_trace ].
Qed.

#[global] Instance only_trace_frame : Frame only_trace.
Proof. split; [ apply only_trace_refl | apply only_trace_trans | apply only_trace_trace ]. Qed.

(* ===================================================================== *)
(** ** The per-job wrappers and the forced run *)
(* ===================================================================== *)

Lemma set_trace_set_trace t1 t2 s : set_trace t2 (set_trace t1 s) = set_trace t2 s.
Proof. done. Qed.

Ltac run_wrapper :=
  intros; unfold bind, emit, try_except, scraper_call, wrapper_events, wrapper_outcome;
  simpl;
  match goal with
  | |- context [env_scraper ?env ?op ?t ?ic] => destruct (env_scraper env op t ic)
  end; simpl;
  try match goal with
      | |- context [is_Exception ?c] => destruct (is_Exception c); simpl
      end;
  unfold set_trace; simpl; rewrite <- ?app_assoc; reflexivity.

Lemma run_channel_scrape_result env channel_id ic s :
  _run_channel_scrape env channel_id ic s =
  let r := env_scraper env ChannelFetch channel_id ic in
  (wrapper_outcome r, set_trace (trace s ++ wrapper_events ChannelFetch channel_id ic r) s).
Proof. unfold _run_channel_scrape. run_wrapper. Qed.

Lemma run_video_scrape_result env video_id ic s :
  _run_video_scrape env video_id ic s =
  let r := env_scraper env VideoFetch video_id ic in
  (wrapper_outcome r, set_trace (trace s ++ wrapper_events VideoFetch video_id ic r) s).
Proof. unfold _run_video_scrape. run_wrapper. Qed.

Lemma run_playlist_scrape_result env playlist_id ic s :
  _run_playlist_scrape env playlist_id ic s =
  let r := env_scraper env PlaylistFetch playlist_id ic in
  (wrapper_outcome r, set_trace (trace s ++ wrapper_events PlaylistFetch playlist_id ic r) s).
Proof. unfold _run_playlist_scrape. run_wrapper. Qed.

Lemma run_search_scrape_result env query ic s :
  _run_search_scrape env query ic s =
  let r := env_scraper env SearchFetch query ic in
  (wrapper_outcome r, set_trace (trace s ++ wrapper_events SearchFetch query ic r) s).
Proof. unfold _run_search_scrape. run_wrapper. Qed.

Lemma call_job_result env job s :
  call_job env job s =
  let r := env_scraper env (func job) (fst (args job)) (snd (args job)) in
  (wrapper_outcome r,
   set_trace (trace s ++ wrapper_events (func job) (fst (args job)) (snd (args job)) r) s).
Proof.
  unfold call_job. destruct (func job).
  - apply run_channel_scrape_result.
  - apply run_video_scrape_result.
  - apply run_playlist_scrape_result.
  - apply run_search_scrape_result.
Qed.

Lemma wrapper_outcome_comes_back r : comes_back r -> wrapper_outcome r = Ret tt.
Proof. destruct r as [res | e | ]; simpl; try done. by intros ->. Qed.

(** C2.  Whatever exception the scraper raises, each of the four wrappers
    returns normally: if the scraper call comes back (it returns, or it
    raises an instance of [Exception]), the wrapper returns, and nothing
    but the trace of the scheduler has changed. *)
Theorem wrappers_catch_fetch_failures (env : Env) (target : option string)
    (include_comments : bool) (s : State) :
  (comes_back (env_scraper env ChannelFetch target include_comments) ->
   fst (_run_channel_scrape env target include_comments s) = Ret tt /\
   only_trace s (snd (_run_channel_scrape env target include_comments s))) /\
  (comes_back (env_scraper env VideoFetch target include_comments) ->
   fst (_run_video_scrape env target include_comments s) = Ret tt /\
   only_trace s (snd (_run_video_scrape env target include_comments s))) /\
  (comes_back (env_scraper env PlaylistFetch target include_comments) ->
   fst (_run_playlist_scrape env target include_comments s) = Ret tt /\
   only_trace s (snd (_run_playlist_scrape env target include_comments s))) /\
  (comes_back (env_scraper env SearchFetch target include_comments) ->
   fst (_run_search_scrape env target include_comments s) = Ret tt /\
   only_trace s (snd (_run_search_scrape env target include_comments s))).
Proof.
  rewrite run_channel_scrape_result, run_video_scrape_result,
    run_playlist_scrape_result, run_search_scrape_result.
  simpl. repeat split; try by apply wrapper_outcome_comes_back.
Qed.

Lemma wrappers_catch_fetch_failures_witness :
  fst (_run_video_scrape demo_env (Some "bad") true (_setup_scheduler ∅)) = Ret tt /\
  only_trace (_setup_scheduler ∅)
             (snd (_run_video_scrape demo_env (Some "bad") true (_setup_scheduler ∅))).
Proof.
  pose proof (wrappers_catch_fetch_failures demo_env (Some "bad") true
                (_setup_scheduler ∅)) as (_ & Hvideo & _).
  apply Hvideo. vm_compute. reflexivity.
Defined.


(** The worker returns when the job's scraper call comes back. *)
Lemma run_job_outcome_comes_back res grace clock k run_times :
  comes_back res -> run_job_outcome res grace clock k run_times = Ret tt.
Proof.
  intros Hc. revert k. induction run_times as [ | r0 rest IH]; intros k; simpl.
  - done.
  - rewrite (wrapper_outcome_comes_back _ Hc). by destruct (too_late _ _ _).
Qed.

(** What [run_job_now] does for a job that is in the store: the job's
    wrapper runs inside the call, on the stored arguments; the call returns
    [True] once the wrapper has returned. *)
Lemma run_job_now_result env id job s :
  jobs s !! id = Some job ->
  let res := env_scraper env (func job) (fst (args job)) (snd (args job)) in
  run_job_now env id s =
  (match wrapper_outcome res with
   | Ret _ => Ret true
   | Raise e => Raise e
   | Diverge => Diverge
   end,
   set_trace (trace s ++ wrapper_events (func job) (fst (args job)) (snd (args job)) res ++
              match wrapper_outcome res with
              | Ret _ => [Log INFO ("Manually triggered job " +:+ id)]
              | _ => []
              end) s).
Proof.
  intros Hj res. unfold run_job_now, try_except, bind at 1, get_job.
  cbn [fst snd]. rewrite Hj. unfold bind at 1. rewrite call_job_result. cbn zeta.
  fold res. clearbody res. unfold wrapper_outcome, wrapper_events, set_trace.
  destruct res as [x | e | ]; simpl.
  - by rewrite <- !app_assoc.
  - destruct (is_Exception (exn_class e)) eqn:He; simpl; rewrite ?He; simpl.
    + by rewrite <- !app_assoc.
    + by rewrite <- ?app_assoc.
  - by rewrite <- ?app_assoc.
Qed.

Lemma fetches_app t1 t2 : fetches (t1 ++ t2) = fetches t1 ++ fetches t2.
Proof. unfold fetches. apply List.filter_app. Qed.

Lemma fetches_wrapper_events op target ic res :
  fetches (wrapper_events op target ic res) = [Fetch op target ic res].
Proof.
  unfold wrapper_events. destruct res as [x | e | ]; try done.
  simpl. by destruct (is_Exception (exn_class e)).
Qed.

(** C7.  For a job that is in the store, [run_job_now] calls the scraper
    once, for the job's operation and with the job's stored arguments, and
    leaves the job store as it was: the job's next run time and every
    other stored field are unchanged (and so is the executor). *)
Theorem run_job_now_leaves_store_alone (env : Env) (id : string) (job : Job)
    (s : State) :
  jobs s !! id = Some job ->
  let s' := snd (run_job_now env id s) in
  fetches (trace s') =
    fetches (trace s) ++
    [Fetch (func job) (fst (args job)) (snd (args job))
           (env_scraper env (func job) (fst (args job)) (snd (args job)))] /\
  jobs s' = jobs s /\
  jobs s' !! id = Some job /\
  same_executor s s'.
Proof.
  intros Hj s'. subst s'. rewrite (run_job_now_result env id job s Hj).
  cbn [snd]. repeat split; try done.
  cbn [trace set_trace]. rewrite !fetches_app, fetches_wrapper_events.
  destruct (wrapper_outcome _); cbn; by rewrite ?app_nil_r.
Qed.

(** A store with one video job, for running the definitions. *)
Lemma run_job_now_leaves_store_alone_witness :
  let job := mkJob VideoFetch (Some "bad", true) "Video Scrape: bad"
                   (IntervalTrigger 3600000000 3600000000) (Some 3600000000%Z) in
  let s := _setup_scheduler {[ "v1" := job ]} in
  let s' := snd (run_job_now demo_env "v1" s) in
  fetches (trace s') =
    fetches (trace s) ++
    [Fetch VideoFetch (Some "bad") true (demo_scraper VideoFetch (Some "bad") true)] /\
  jobs s' = jobs s /\
  jobs s' !! "v1" = Some job /\
  same_executor s s'.
Proof.
  intros job s.
  apply (run_job_now_leaves_store_alone demo_env "v1" job s).
  reflexivity.
Defined.

(** C10.  [run_job_now] runs the job function inside the call: when the
    scraper call comes back, [run_job_now] returns [True] in a state whose
    trace already holds the completed scraper call, followed by the
    "Manually triggered" line; when the scraper call never comes back,
    neither does [run_job_now]; the executor is not involved (no firing is
    handed over, no instance is counted).  Hence the [run] action of
    [main] prints its message and shuts the scheduler down only after the
    scrape is over. *)
Theorem run_job_now_is_synchronous (env : Env) (id : string) (job : Job)
    (s : State) :
  jobs s !! id = Some job ->
  let res := env_scraper env (func job) (fst (args job)) (snd (args job)) in
  let events := wrapper_events (func job) (fst (args job)) (snd (args job)) res in
  (comes_back res ->
   run_job_now env id s =
   (Ret true,
    set_trace (trace s ++ events ++
               [Log INFO ("Manually triggered job " +:+ id)]) s)) /\
  (res = Diverge -> fst (run_job_now env id s) = Diverge) /\
  same_executor s (snd (run_job_now env id s)) /\
  (forall scheduled_jobs clock s0 job_id,
     truthy job_id = true -> fmt job_id = id ->
     start env scheduled_jobs clock s0 = (Ret tt, s) ->
     comes_back res ->
     main_run env scheduled_jobs job_id clock s0 =
     (Ret tt,
      set_trace (trace s ++ events ++
                 [Log INFO ("Manually triggered job " +:+ id);
                  Print ("Job " +:+ id +:+ " triggered successfully");
                  Stopped;
                  Log INFO "Scheduler shutdown"]) s)).
Proof.
  intros Hj res events.
  pose proof (run_job_now_result env id job s Hj) as Hr. cbn zeta in Hr.
  fold res in Hr. fold events in Hr.
  assert (Hback : comes_back res ->
            run_job_now env id s =
            (Ret true,
             set_trace (trace s ++ events ++
                        [Log INFO ("Manually triggered job " +:+ id)]) s)).
  { intros Hc. rewrite Hr. by rewrite (wrapper_outcome_comes_back _ Hc). }
  split; [ exact Hback | ]. split; [ | split ].
  - intros Hd. rewrite Hr, Hd. reflexivity.
  - rewrite Hr. apply same_executor_trace.
  - intros scheduled_jobs clock s0 job_id Ht Hid Hstart Hc.
    unfold main_run. rewrite Ht. cbn [negb]. unfold bind at 1. rewrite Hstart.
    unfold bind at 1. rewrite Hid, (Hback Hc).
    clearbody events. unfold shutdown, emit. unfold bind, set_trace. simpl.
    by rewrite <- ?app_assoc.
Qed.

Lemma run_job_now_is_synchronous_witness :
  let job := mkJob VideoFetch (Some "bad", true) "Video Scrape: bad"
                   (IntervalTrigger 3600000000 3600000000) (Some 3600000000%Z) in
  let s := _setup_scheduler {[ "v1" := job ]} in
  run_job_now demo_env "v1" s =
  (Ret true,
   set_trace (trace s ++
              wrapper_events VideoFetch (Some "bad") true
                             (demo_scraper VideoFetch (Some "bad") true) ++
              [Log INFO ("Manually triggered job " +:+ "v1")]) s).
Proof.
  intros job s.
  apply (run_job_now_is_synchronous demo_env "v1" job s); reflexivity.
Defined.

(* ===================================================================== *)
(** ** The control surface on an id that is not in the store *)
(* ===================================================================== *)

Lemma remove_job_absent id s :
  jobs s !! id = None ->
  remove_job id s =
  (Ret false,
   set_trace (trace s ++
     [Log ERROR ("Error removing job " +:+ id +:+ ": " +:+
                 exn_msg (job_lookup_error id))]) s).
Proof.
  intros Hn. unfold remove_job, try_except, bind at 1, APS.remove_job.
  by rewrite Hn.
Qed.

Lemma pause_job_absent id s :
  jobs s !! id = None ->
  pause_job id s =
  (Ret false,
   set_trace (trace s ++
     [Log ERROR ("Error pausing job " +:+ id +:+ ": " +:+
                 exn_msg (job_lookup_error id))]) s).
Proof.
  intros Hn. unfold pause_job, try_except, bind at 1, APS.pause_job.
  by rewrite Hn.
Qed.

Lemma resume_job_absent env id now s :
  jobs s !! id = None ->
  resume_job env id now s =
  (Ret false,
   set_trace (trace s ++
     [Log ERROR ("Error resuming job " +:+ id +:+ ": " +:+
                 exn_msg (job_lookup_error id))]) s).
Proof.
  intros Hn. unfold resume_job, try_except, bind at 1, APS.resume_job.
  by rewrite Hn.
Qed.

(** C8.  For a job id that is not in the store, [remove_job], [pause_job]
    and [resume_job] each return [False] (they return: the library's
    lookup error does not escape), and they leave the job store and the
    executor unchanged. *)
Theorem control_surface_absent_id (env : Env) (id : string) (now : Z) (s : State) :
  jobs s !! id = None ->
  (fst (remove_job id s) = Ret false /\ only_trace s (snd (remove_job id s))) /\
  (fst (pause_job id s) = Ret false /\ only_trace s (snd (pause_job id s))) /\
  (fst (resume_job env id now s) = Ret false /\
   only_trace s (snd (resume_job env id now s))).
Proof.
  intros Hn.
  rewrite remove_job_absent, pause_job_absent, resume_job_absent by done.
  repeat split.
Qed.

Lemma control_surface_absent_id_witness :
  fst (remove_job "nope" (_setup_scheduler ∅)) = Ret false /\
  only_trace (_setup_scheduler ∅) (snd (remove_job "nope" (_setup_scheduler ∅))).
Proof.
  apply (control_surface_absent_id demo_env "nope" 0 (_setup_scheduler ∅)).
  reflexivity.
Defined.

(* ===================================================================== *)
(** ** Adding jobs *)
(* ===================================================================== *)

Lemma add_job_fresh cron_fire f t a id nm now s :
  jobs s !! id = None ->
  add_job cron_fire f t a id nm now s =
  (Ret tt,
   set_jobs (<[id := mkJob f a nm t (get_next_fire_time cron_fire t None now)]> (jobs s)) s).
Proof. intros Hn. unfold add_job. by rewrite Hn. Qed.

Lemma add_job_conflict cron_fire f t a id nm now s :
  is_Some (jobs s !! id) ->
  fst (add_job cron_fire f t a id nm now s) =
    Raise (Exn ConflictingIdError
             ("Job identifier (" +:+ id +:+ ") conflicts with an existing job")) /\
  snd (add_job cron_fire f t a id nm now s) = s.
Proof. intros [j Hj]. unfold add_job. by rewrite Hj. Qed.

Lemma parse_schedule_same_jobs env st interval cron now s :
  jobs (snd (_parse_schedule env st interval cron now s)) = jobs s.
Proof.
  apply (preserves_parse_schedule same_jobs).
Qed.

(** C3 (as amended).  No [schedule_*] method looks at its target: for every
    operation and every target, a missing or an empty one included, a call
    that names a job id not yet in the store, with a schedule from which
    [_parse_schedule] builds a trigger, returns that id and stores under it
    a job for the operation with the target as given. *)
Theorem schedule_stores_any_target (env : Env) (operation : Operation)
    (target : option string) (include_comments : bool) (schedule_type : string)
    (interval : option (gmap string Z)) (cron : option (gmap string string))
    (job_id : option string) (now : Z) (s : State) (t : Trigger) :
  truthy job_id = true ->
  fst (_parse_schedule env schedule_type interval cron now s) = Ret t ->
  jobs s !! fmt job_id = None ->
  let r := schedule env operation target include_comments schedule_type
                    interval cron job_id now s in
  fst r = Ret (fmt job_id) /\
  jobs (snd r) =
    <[fmt job_id :=
        mkJob operation (target, include_comments)
              (name_prefix operation +:+ fmt target) t
              (get_next_fire_time (env_cron_fire env) t None now)]> (jobs s).
Proof.
  intros Hid Hp Hn.
  pose proof (parse_schedule_same_jobs env schedule_type interval cron now s) as Hj.
  destruct (_parse_schedule env schedule_type interval cron now s) as [o s1] eqn:E.
  simpl in Hp, Hj. subst o.
  assert (Hn1 : jobs s1 !! fmt job_id = None) by (by rewrite Hj).
  destruct operation; cbn zeta;
    unfold schedule, schedule_channel_scrape, schedule_video_scrape,
      schedule_playlist_scrape, schedule_search_scrape;
    rewrite Hid; unfold bind, ret; rewrite ?E;
    rewrite (add_job_fresh _ _ _ _ _ _ _ _ Hn1); simpl; by rewrite Hj.
Qed.

Lemma schedule_stores_any_target_witness :
  let r := schedule demo_env VideoFetch (Some "") true "interval" None None
                    (Some "v1") 0 (_setup_scheduler ∅) in
  fst r = Ret "v1" /\
  jobs (snd r) =
    <["v1" :=
        mkJob VideoFetch (Some "", true) ("Video Scrape: " +:+ "")
              (IntervalTrigger 86400000000 (0 + 86400000000))
              (get_next_fire_time (env_cron_fire demo_env)
                 (IntervalTrigger 86400000000 (0 + 86400000000)) None 0)]>
      (jobs (_setup_scheduler ∅)).
Proof.
  apply (schedule_stores_any_target demo_env VideoFetch (Some "") true "interval"
           None None (Some "v1") 0 (_setup_scheduler ∅)
           (IntervalTrigger 86400000000 (0 + 86400000000))).
  - reflexivity.
  - reflexivity.
  - reflexivity.
Defined.

(** C3 (as stated) fails: a configuration entry of type [channel] without
    a [channel_id] is loaded without any error and its job, with target
    [None], is in the store afterwards; so is a job scheduled with the
    empty string as its target. *)
Lemma missing_target_enters_store :
  let entry := mkConfigJob (Some "channel") (Some "j1") None None None None
                           None None None None in
  let r := start demo_env [entry] (fun _ => 0%Z) (_setup_scheduler ∅) in
  let r' := schedule_video_scrape demo_env (Some "") true "interval" None None
                                  (Some "v1") 0 (_setup_scheduler ∅) in
  (fst r = Ret tt /\
   exists job, jobs (snd r) !! "j1" = Some job /\ args job = (None, false)) /\
  (fst r' = Ret "v1" /\
   exists job, jobs (snd r') !! "v1" = Some job /\ args job = (Some "", true)).
Proof.
  repeat split; try reflexivity; eexists; split; reflexivity.
Qed.

(* ===================================================================== *)
(** ** Properties of every stored job *)
(* ===================================================================== *)

#[global] Instance keeps_all_jobs_frame (Q : Job -> Prop) : Frame (keeps (all_jobs Q)).
Proof.
  split; unfold keeps.
  - auto.
  - auto.
  - intros s t H. exact H.
Qed.

Section JobInvariant.

(** [Q] is a property of jobs that does not depend on the next run time
    and that holds of every job as the [schedule_*] methods build it. *)
Context (Q : Job -> Prop).
Context (Q_next : forall n j, Q j -> Q (with_next_run_time n j)).
Context (Q_new : forall op target ic t n,
            Q (mkJob op (target, ic) (name_prefix op +:+ fmt target) t n)).










Lemma get_due_jobs_lookup now s idj :
  idj ∈ get_due_jobs now s ->
  jobs s !! fst idj = Some (snd idj) /\ is_due now (snd idj) = true.
Proof.
  unfold get_due_jobs. rewrite list_elem_of_In, List.filter_In, <- list_elem_of_In.
  intros [Hin Hd]. split; [ | exact Hd ].
  destruct idj as [id j]. by apply elem_of_map_to_list.
Qed.









End JobInvariant.

(* ===================================================================== *)
(** ** Listing the jobs *)
(* ===================================================================== *)





(* ===================================================================== *)
(** ** Paused jobs and due jobs *)
(* ===================================================================== *)

Lemma list_jobs_same_jobs env : preserves same_jobs (list_jobs env).
Proof. by intros s. Qed.

Lemma run_job_now_same_jobs env id : preserves same_jobs (run_job_now env id).
Proof.
  unfold run_job_now. apply preserves_try_except; [ apply _ | | ].
  - apply preserves_bind; [ apply _ | apply preserves_get_job; apply _ | intros [j | ] ];
      repeat first [ apply preserves_bind; [ apply _ | | intros ? ]
                   | apply preserves_call_job; apply _
                   | apply preserves_emit; apply _
                   | apply preserves_ret; apply _ ].
  - intros e. apply preserves_bind; [ apply _ | apply preserves_emit; apply _ | intros _ ].
    apply preserves_ret; apply _.
Qed.

Lemma finish_firing_same_jobs env i clock :
  preserves same_jobs (finish_firing (call_job env) i clock).
Proof.
  intros s. unfold finish_firing. destruct (running s !! i) as [f | ]; [ | done ].
  apply preserves_bind; [ apply _ | apply preserves_run_job_from; apply _ | ].
  by intros _ s1.
Qed.

#[global] Instance keeps_paused_frame (id : string) : Frame (keeps (paused_in_store id)).
Proof.
  split; unfold keeps.
  - auto.
  - auto.
  - intros s t H. exact H.
Qed.

Section PausedJob.

Context (id : string).
Local Abbreviation K := (keeps (paused_in_store id)).

Lemma paused_insert_other id' j s :
  id' <> id -> paused_in_store id s ->
  paused_in_store id (set_jobs (<[id' := j]> (jobs s)) s).
Proof.
  intros Hne (j0 & Hj0 & Hp). exists j0. simpl. by rewrite lookup_insert_ne.
Qed.

Lemma paused_delete_other id' s :
  id' <> id -> paused_in_store id s ->
  paused_in_store id (set_jobs (delete id' (jobs s)) s).
Proof.
  intros Hne (j0 & Hj0 & Hp). exists j0. simpl. by rewrite lookup_delete_ne.
Qed.

Lemma paused_add_job cf f t a id' nm now : preserves K (add_job cf f t a id' nm now).
Proof.
  intros s Hs. unfold add_job. destruct (jobs s !! id') eqn:E; [ exact Hs | ].
  simpl. apply paused_insert_other; [ | exact Hs ].
  intros ->. destruct Hs as (j0 & Hj0 & _). congruence.
Qed.

Lemma paused_remove_job id' : id' <> id -> preserves K (APS.remove_job id').
Proof.
  intros Hne s Hs. unfold APS.remove_job. destruct (jobs s !! id'); [ | exact Hs ].
  simpl. by apply paused_delete_other.
Qed.

Lemma paused_pause_job id' : preserves K (APS.pause_job id').
Proof.
  intros s Hs. unfold APS.pause_job. destruct (jobs s !! id') as [j | ] eqn:E; [ | exact Hs ].
  simpl. destruct (decide (id' = id)) as [-> | Hne].
  - exists (with_next_run_time None j). simpl. by rewrite lookup_insert_eq.
  - by apply paused_insert_other.
Qed.

Lemma paused_resume_job cf id' now : id' <> id -> preserves K (APS.resume_job cf id' now).
Proof.
  intros Hne s Hs. unfold APS.resume_job.
  destruct (jobs s !! id') as [j | ] eqn:E; [ | exact Hs ].
  destruct (get_next_fire_time cf (trigger j) None now).
  - simpl. by apply paused_insert_other.
  - by apply paused_remove_job.
Qed.

Lemma paused_submit_or_skip id' job run_times :
  preserves K (submit_or_skip id' job run_times).
Proof.
  unfold submit_or_skip. apply preserves_try_except_base; [ apply _ | | ].
  - intros s Hs. unfold submit_job.
    destruct (max_instances (defaults s) <=? running_instances s id')%nat; exact Hs.
  - intros e. apply preserves_if; apply preserves_emit; apply _.
Qed.

Lemma paused_process_job cf fuel now idj :
  fst idj <> id -> preserves K (process_job cf fuel now idj).
Proof.
  intros Hne s. unfold process_job.
  destruct (get_run_times cf fuel (trigger idj.2) (next_run_time idj.2) now) as [rts | ];
    [ | by intros ? ].
  cbn zeta. destruct (last _) as [r | ]; [ | by intros ? ].
  apply preserves_bind; [ apply _ | apply paused_submit_or_skip | ].
  intros _ s1 Hs1. unfold update_next_run.
  destruct (get_next_fire_time cf (trigger idj.2) (Some r) now).
  - simpl. by apply paused_insert_other.
  - by apply paused_remove_job.
Qed.

(** A paused job is not among the due jobs. *)
Lemma paused_not_due now s :
  paused_in_store id s -> id ∉ map fst (get_due_jobs now s).
Proof.
  intros (j0 & Hj0 & Hp) Hin. apply list_elem_of_fmap in Hin as ([id' j] & Hid & Hin).
  simpl in Hid. subst id'. apply get_due_jobs_lookup in Hin as [Hl Hd]. simpl in *.
  assert (j = j0) by congruence. subst j. unfold is_due in Hd. by rewrite Hp in Hd.
Qed.

Lemma paused_process_jobs cf fuel now : preserves K (process_jobs cf fuel now).
Proof.
  intros s Hs. unfold process_jobs.
  apply (preserves_for_each (keeps (paused_in_store id))); [ | exact Hs ].
  intros idj Hin. apply paused_process_job. intros Heq.
  apply (paused_not_due now s Hs). apply list_elem_of_fmap. by exists idj.
Qed.

Lemma paused_schedule env operation target ic st interval cron job_id now :
  preserves K (schedule env operation target ic st interval cron job_id now).
Proof.
  destruct operation; unfold schedule, schedule_channel_scrape,
    schedule_video_scrape, schedule_playlist_scrape, schedule_search_scrape;
    repeat first
      [ apply preserves_bind; [ apply _ | | intros ? ]
      | apply preserves_parse_schedule; apply _
      | apply preserves_emit; apply _
      | apply preserves_ret; apply _
      | apply preserves_raise; apply _
      | apply paused_add_job
      | apply preserves_if
      | match goal with |- preserves _ (match ?q with _ => _ end) => destruct q end ].
Qed.

Lemma paused_start env scheduled_jobs clock :
  preserves K (start env scheduled_jobs clock).
Proof.
  unfold start, _add_scheduled_jobs_from_config.
  do 2 (apply preserves_bind; [ apply _ | apply preserves_emit; apply _ | intros _ ]).
  generalize 0%nat. induction scheduled_jobs as [ | j rest IH]; intros k; simpl.
  - apply preserves_ret; apply _.
  - apply preserves_bind; [ apply _ | | intros _; apply IH ].
    unfold add_scheduled_job.
    repeat (apply preserves_if;
            [ apply preserves_bind;
              [ apply _ | | intros ?; apply preserves_ret; apply _ ] | ]).
    + exact (paused_schedule env ChannelFetch _ _ _ _ _ _ _).
    + exact (paused_schedule env VideoFetch _ _ _ _ _ _ _).
    + exact (paused_schedule env PlaylistFetch _ _ _ _ _ _ _).
    + exact (paused_schedule env SearchFetch _ _ _ _ _ _ _).
    + apply preserves_emit; apply _.
Qed.

Lemma paused_exec env o s :
  ~ resumes_or_removes id o -> paused_in_store id s -> paused_in_store id (exec env o s).
Proof.
  intros Hno. destruct o; simpl in *.
  - apply paused_schedule.
  - apply paused_start.
  - auto.
  - unfold remove_job.
    apply preserves_try_except; [ apply _ | | ].
    + apply preserves_bind; [ apply _ | by apply paused_remove_job | intros _ ].
      apply preserves_bind; [ apply _ | apply preserves_emit; apply _ | intros _ ].
      apply preserves_ret; apply _.
    + intros e. apply preserves_bind; [ apply _ | apply preserves_emit; apply _ | intros _ ].
      apply preserves_ret; apply _.
  - unfold pause_job.
    apply preserves_try_except; [ apply _ | | ].
    + apply preserves_bind; [ apply _ | by apply paused_pause_job | intros _ ].
      apply preserves_bind; [ apply _ | apply preserves_emit; apply _ | intros _ ].
      apply preserves_ret; apply _.
    + intros e. apply preserves_bind; [ apply _ | apply preserves_emit; apply _ | intros _ ].
      apply preserves_ret; apply _.
  - unfold resume_job.
    apply preserves_try_except; [ apply _ | | ].
    + apply preserves_bind; [ apply _ | by apply paused_resume_job | intros _ ].
      apply preserves_bind; [ apply _ | apply preserves_emit; apply _ | intros _ ].
      apply preserves_ret; apply _.
    + intros e. apply preserves_bind; [ apply _ | apply preserves_emit; apply _ | intros _ ].
      apply preserves_ret; apply _.
  - intros (j0 & Hj0 & Hp). exists j0.
    by rewrite (run_job_now_same_jobs env job_id s).
  - apply paused_process_jobs.
  - intros (j0 & Hj0 & Hp). exists j0.
    by rewrite (finish_firing_same_jobs env i clock s).
  - auto.
Qed.

End PausedJob.

Lemma paused_exec_all env id ops s :
  Forall (fun o => ~ resumes_or_removes id o) ops ->
  paused_in_store id s -> paused_in_store id (exec_all env ops s).
Proof.
  unfold exec_all. revert s. induction ops as [ | o ops IH]; intros s Hops Hs; simpl.
  - exact Hs.
  - inversion Hops; subst. apply IH; [ done | ]. by apply paused_exec.
Qed.

Lemma pause_job_present id j s :
  jobs s !! id = Some j ->
  pause_job id s =
  (Ret true,
   set_trace (trace s ++ [Log INFO ("Paused job " +:+ id)])
             (set_jobs (<[id := with_next_run_time None j]> (jobs s)) s)).
Proof.
  intros E. unfold pause_job, try_except, bind, APS.pause_job, emit, ret.
  by rewrite E.
Qed.

Lemma pause_job_succeeds id s :
  fst (pause_job id s) = Ret true -> paused_in_store id (snd (pause_job id s)).
Proof.
  destruct (jobs s !! id) as [j | ] eqn:E.
  - rewrite (pause_job_present id j s E). intros _.
    exists (with_next_run_time None j). simpl. by rewrite lookup_insert_eq.
  - rewrite (pause_job_absent id s E). discriminate.
Qed.

(** C6.  A paused job is a job whose next run time is [None].  The due
    jobs at [asOf] are stored jobs with a next run time at or before
    [asOf]: never a paused job, never a job that is due later.  After a
    successful [pause_job(id)], through any operations that neither resume
    nor remove that job, the job stays in the store with no next run time
    and is in no list of due jobs. *)
Theorem paused_jobs_are_never_due (env : Env) :
  (forall s asOf idj,
     idj ∈ get_due_jobs asOf s ->
     jobs s !! fst idj = Some (snd idj) /\
     exists t, next_run_time (snd idj) = Some t /\ (t <= asOf)%Z) /\
  (forall s id ops asOf,
     fst (pause_job id s) = Ret true ->
     Forall (fun o => ~ resumes_or_removes id o) ops ->
     let s' := exec_all env ops (snd (pause_job id s)) in
     paused_in_store id s' /\ id ∉ map fst (get_due_jobs asOf s')).
Proof.
  split.
  - intros s asOf idj Hin. apply get_due_jobs_lookup in Hin as [Hl Hd].
    split; [ exact Hl | ]. unfold is_due in Hd.
    destruct (next_run_time idj.2) as [t | ]; [ | discriminate ].
    exists t. split; [ done | ]. by apply Z.leb_le.
  - intros s id ops asOf Hp Hops s'.
    assert (Hs' : paused_in_store id s').
    { apply paused_exec_all; [ done | ]. by apply pause_job_succeeds. }
    split; [ exact Hs' | ]. by apply paused_not_due.
Qed.

Lemma paused_jobs_are_never_due_witness :
  let job := mkJob VideoFetch (Some "abc", true) "Video Scrape: abc"
                   (IntervalTrigger 1000000 1000000) (Some 1000000%Z) in
  let s := _setup_scheduler {[ "v1" := job ]} in
  let s' := exec_all demo_env [Tick 5 2000000%Z; RunJobNow "v1"; ResumeJob "other" 0%Z]
                     (snd (pause_job "v1" s)) in
  paused_in_store "v1" s' /\ "v1" ∉ map fst (get_due_jobs 3000000%Z s').
Proof.
  intros job s.
  apply (proj2 (paused_jobs_are_never_due demo_env) s "v1"
               [Tick 5 2000000%Z; RunJobNow "v1"; ResumeJob "other" 0%Z] 3000000%Z).
  - reflexivity.
  - repeat constructor; simpl; auto.
Defined.

(* ===================================================================== *)
(** ** Firings in flight *)
(* ===================================================================== *)






#[global] Instance keeps_executor_ok_frame : Frame (keeps executor_ok).
Proof.
  split; unfold keeps.
  - auto.
  - auto.
  - intros s t H. exact H.
Qed.













(* ===================================================================== *)
(** ** Misfires *)
(* ===================================================================== *)




(** With a trigger that always advances, the loop that collects the run
    times of a due job ends: the run times start with the job's next run
    time, increase, none is after [now], and the fire time after the last
    of them is after [now]. *)
Lemma get_run_times_spec cf tr now :
  always_advances cf tr ->
  forall fuel t,
    (now - t < Z.of_nat fuel)%Z -> (t <= now)%Z ->
    exists rts r n,
      get_run_times cf fuel tr (Some t) now = Some (t :: rts) /\
      Forall (fun x => t < x <= now)%Z rts /\
      last (t :: rts) = Some r /\ (r <= now)%Z /\
      get_next_fire_time cf tr (Some r) now = Some n /\ (now < n)%Z.
Proof.
  intros Hadv. induction fuel as [ | fuel IH]; intros t Hfuel Hdue; [ lia | ].
  cbn [get_run_times]. destruct (Z.leb_spec t now) as [_ | ]; [ | lia ].
  destruct (Hadv t now) as (q & Hq & Hlt). rewrite Hq.
  destruct (Z.le_gt_cases q now) as [Hqdue | Hqlater].
  - destruct (IH q ltac:(lia) Hqdue) as (rts & r & n & Hg & Hall & Hlast & Hr & Hn & Hnow).
    rewrite Hg. exists (q :: rts), r, n. repeat split; try done.
    + constructor; [ lia | ]. eapply Forall_impl; [ exact Hall | ].
      simpl. intros x ?. lia.
  - exists [], t, q. replace (get_run_times cf fuel tr (Some q) now) with (Some (@nil Z)).
    + repeat split; done.
    + destruct fuel; simpl; by destruct (Z.leb_spec q now); try lia.
Qed.

Lemma interval_always_advances cf i sd :
  (0 < i)%Z -> always_advances cf (IntervalTrigger i sd).
Proof. intros Hi p now. exists (p + i)%Z. split; [ done | lia ]. Qed.

Lemma submit_or_skip_result id job run_times s :
  exists s1,
    submit_or_skip id job run_times s = (Ret tt, s1) /\
    jobs s1 = jobs s /\ defaults s1 = defaults s /\
    (running s1 = running s \/
     running s1 = running s ++ [mkFiring id job run_times]).
Proof.
  unfold submit_or_skip, try_except_base, submit_job.
  destruct (max_instances (defaults s) <=? running_instances s id)%nat.
  - eexists. split; [ reflexivity | ]. simpl. auto.
  - eexists. split; [ reflexivity | ]. simpl. auto.
Qed.



(* ===================================================================== *)
(** ** Schedules that are not understood *)
(* ===================================================================== *)
Import Ids.

(** X1.  A schedule type other than ['interval'] and ['cron'] is not an
    error for the caller: [_parse_schedule] logs one line and returns the
    daily interval trigger, whatever interval and cron configuration came
    with it. *)
Theorem parse_schedule_unknown_type (env : Env) (schedule_type : string)
    (interval : option (gmap string Z)) (cron : option (gmap string string))
    (now : Z) (s : State) :
  schedule_type <> "interval" -> schedule_type <> "cron" ->
  _parse_schedule env schedule_type interval cron now s =
  (Ret (IntervalTrigger 86400000000 (now + 86400000000)),
   set_trace (trace s ++ [Log ERROR ("Unknown schedule type: " +:+ schedule_type)]) s).
Proof.
  intros Hi Hc. unfold _parse_schedule.
  apply String.eqb_neq in Hi, Hc. rewrite Hi, Hc.
  unfold bind, emit, lift.
  by rewrite (interval_of_unit "days" 1 now) by set_solver.
Qed.

Lemma parse_schedule_unknown_type_witness :
  _parse_schedule demo_env "weekly" (Some {[ "hours" := 2%Z ]}) None 5
                  (_setup_scheduler ∅) =
  (Ret (IntervalTrigger 86400000000 (5 + 86400000000)),
   set_trace (trace (_setup_scheduler ∅) ++
              [Log ERROR ("Unknown schedule type: " +:+ "weekly")])
             (_setup_scheduler ∅)).
Proof.
  apply (parse_schedule_unknown_type demo_env "weekly" (Some {[ "hours" := 2%Z ]})
           None 5 (_setup_scheduler ∅)); discriminate.
Defined.

(** X2.  None of the [schedule_*] methods guards the construction of the
    trigger: cron fields that the library rejects make the call raise the
    library's error, and the scheduler is left as it was, with no job
    added and nothing logged. *)
Theorem schedule_rejected_cron_escapes (env : Env) (operation : Operation)
    (target : string) (include_comments : bool)
    (interval : option (gmap string Z)) (fields : gmap string string)
    (job_id : option string) (now : Z) (s : State) (e : exn) :
  fields <> ∅ ->
  env_cron_error env fields = Some e ->
  schedule env operation (Some target) include_comments "cron" interval
           (Some fields) job_id now s = (Raise e, s).
Proof.
  intros Hne He.
  assert (Hp : _parse_schedule env "cron" interval (Some fields) now s = (Raise e, s)).
  { unfold _parse_schedule. simpl. rewrite bool_decide_eq_false_2 by done.
    unfold lift, CronTrigger_init. simpl. by rewrite He. }
  destruct operation; simpl;
    unfold schedule_channel_scrape, schedule_video_scrape,
      schedule_playlist_scrape, schedule_search_scrape;
    destruct (truthy job_id); unfold bind, ret; by rewrite Hp.
Qed.

Lemma schedule_rejected_cron_escapes_witness :
  let env := mkEnv demo_scraper
                   (fun _ => Some (Exn ValueError "Unrecognized expression"))
                   (fun _ _ _ => None) (fun _ _ => "20240101000000")
                   (fun _ => "trigger") in
  schedule env SearchFetch (Some "cat videos") false "cron" None
           (Some {[ "hour" := "x" ]}) None 0 (_setup_scheduler ∅) =
  (Raise (Exn ValueError "Unrecognized expression"), _setup_scheduler ∅).
Proof.
  intros env.
  apply (schedule_rejected_cron_escapes env SearchFetch "cat videos" false None
           {[ "hour" := "x" ]} None 0 (_setup_scheduler ∅)).
  - apply insert_non_empty.
  - reflexivity.
Defined.
(* ===================================================================== *)
(** ** The ids of scheduled jobs *)
(* ===================================================================== *)

(** What a [schedule_*] call does, case by case: the id is fixed, the
    trigger is built, the job is added under the id unless the id is
    taken, and only then the line is logged and the id returned. *)
Lemma schedule_cases env operation target ic st interval cron job_id now s :
  schedule env operation target ic st interval cron job_id now s =
  match job_id_of env operation target job_id now with
  | Ret id =>
      let s1 := snd (_parse_schedule env st interval cron now s) in
      match fst (_parse_schedule env st interval cron now s) with
      | Ret t =>
          match jobs s !! id with
          | Some _ => (Raise (conflicting_id_error id), s1)
          | None =>
              (Ret id,
               set_trace (trace s1 ++ [Log INFO (scheduled_msg operation target id)])
                 (set_jobs (<[id := mkJob operation (target, ic)
                                      (name_prefix operation +:+ fmt target) t
                                      (get_next_fire_time (env_cron_fire env) t None now)]>
                              (jobs s)) s1))
          end
      | Raise e => (Raise e, s1)
      | Diverge => (Diverge, s1)
      end
  | Raise e => (Raise e, s)
  | Diverge => (Diverge, s)
  end.
Proof.
  pose proof (parse_schedule_same_jobs env st interval cron now s) as Hj.
  unfold job_id_of, generated_id.
  destruct operation; cbn [schedule id_prefix id_target];
    unfold schedule_channel_scrape, schedule_video_scrape,
      schedule_playlist_scrape, schedule_search_scrape;
    destruct (truthy job_id); try destruct target as [q | ];
    cbn [fmt]; unfold bind, ret, raise; try reflexivity;
    destruct (_parse_schedule env st interval cron now s) as [[t | e | ] s1];
    cbn [fst snd] in *; try reflexivity;
    unfold add_job, conflicting_id_error; rewrite Hj;
    match goal with |- context [jobs s !! ?i] => destruct (jobs s !! i) end;
    cbn; rewrite ?Hj; reflexivity.
Qed.

(** X3.  Called without a job id (or with an empty one), a [schedule_*]
    method makes one up from the kind of job, the target and the clock
    reading to the second (a search query with its spaces replaced by
    underscores); it returns that id and stores the job under it. *)
Theorem schedule_generated_id (env : Env) (operation : Operation)
    (target : string) (include_comments : bool) (schedule_type : string)
    (interval : option (gmap string Z)) (cron : option (gmap string string))
    (job_id : option string) (now : Z) (s : State) (t : Trigger) :
  truthy job_id = false ->
  fst (_parse_schedule env schedule_type interval cron now s) = Ret t ->
  jobs s !! generated_id env operation target now = None ->
  let r := schedule env operation (Some target) include_comments schedule_type
                    interval cron job_id now s in
  fst r = Ret (generated_id env operation target now) /\
  jobs (snd r) !! generated_id env operation target now =
    Some (mkJob operation (Some target, include_comments)
                (name_prefix operation +:+ target) t
                (get_next_fire_time (env_cron_fire env) t None now)) /\
  (forall id, id <> generated_id env operation target now ->
              jobs (snd r) !! id = jobs s !! id).
Proof.
  intros Hid Hp Hn. cbn zeta. rewrite schedule_cases.
  assert (Hg : job_id_of env operation (Some target) job_id now =
               Ret (generated_id env operation target now)).
  { unfold job_id_of. rewrite Hid. by destruct operation. }
  rewrite Hg, Hp. cbn zeta. rewrite Hn. cbn.
  split; [ done | ]. split.
  - by rewrite lookup_insert_eq.
  - intros id Hne. by rewrite lookup_insert_ne.
Qed.

Lemma schedule_generated_id_witness :
  let r := schedule demo_env SearchFetch (Some "cat videos") false "interval"
                    None None None 0 (_setup_scheduler ∅) in
  fst r = Ret (generated_id demo_env SearchFetch "cat videos" 0) /\
  jobs (snd r) !! generated_id demo_env SearchFetch "cat videos" 0 =
    Some (mkJob SearchFetch (Some "cat videos", false)
                (name_prefix SearchFetch +:+ "cat videos")
                (IntervalTrigger 86400000000 (0 + 86400000000))
                (get_next_fire_time (env_cron_fire demo_env)
                   (IntervalTrigger 86400000000 (0 + 86400000000)) None 0)) /\
  (forall id, id <> generated_id demo_env SearchFetch "cat videos" 0 ->
              jobs (snd r) !! id = jobs (_setup_scheduler ∅) !! id).
Proof.
  apply (schedule_generated_id demo_env SearchFetch "cat videos" false "interval"
           None None None 0 (_setup_scheduler ∅)
           (IntervalTrigger 86400000000 (0 + 86400000000))).
  - reflexivity.
  - reflexivity.
  - reflexivity.
Defined.

Lemma schedule_taken_id_raises_aux env operation target ic st interval cron job_id now s t :
  truthy job_id = true ->
  is_Some (jobs s !! fmt job_id) ->
  fst (_parse_schedule env st interval cron now s) = Ret t ->
  let r := schedule env operation target ic st interval cron job_id now s in
  fst r = Raise (conflicting_id_error (fmt job_id)) /\
  only_trace s (snd r) /\
  snd r = snd (_parse_schedule env st interval cron now s).
Proof.
  intros Hid [j Hj] Hp. cbn zeta. rewrite schedule_cases.
  unfold job_id_of. rewrite Hid, Hp. cbn zeta. rewrite Hj. cbn [fst snd].
  split; [ done | ]. split; [ | done ].
  apply (preserves_parse_schedule only_trace).
Qed.

(** X4.  An id that is taken is never overwritten: a [schedule_*] call
    that is given the id of a stored job, with a schedule that yields a
    trigger, raises the library's [ConflictingIdError] to its caller;
    the job store and the executor stay as they were and the method's
    [Scheduled ...] line is not logged. *)
Theorem schedule_taken_id_raises (env : Env) (operation : Operation)
    (target : option string) (include_comments : bool) (schedule_type : string)
    (interval : option (gmap string Z)) (cron : option (gmap string string))
    (job_id : option string) (now : Z) (s : State) (t : Trigger) :
  truthy job_id = true ->
  is_Some (jobs s !! fmt job_id) ->
  fst (_parse_schedule env schedule_type interval cron now s) = Ret t ->
  let r := schedule env operation target include_comments schedule_type
                    interval cron job_id now s in
  fst r = Raise (conflicting_id_error (fmt job_id)) /\
  only_trace s (snd r) /\
  snd r = snd (_parse_schedule env schedule_type interval cron now s).
Proof.
  apply schedule_taken_id_raises_aux.
Qed.

Lemma schedule_taken_id_raises_witness :
  let s := snd (schedule_video_scrape demo_env (Some "abc") true "interval" None
                                      None (Some "v1") 0 (_setup_scheduler ∅)) in
  let r := schedule demo_env ChannelFetch (Some "UC1") false "interval" None None
                    (Some "v1") 9 s in
  fst r = Raise (conflicting_id_error "v1") /\
  only_trace s (snd r) /\
  snd r = snd (_parse_schedule demo_env "interval" None None 9 s).
Proof.
  intros s.
  apply (schedule_taken_id_raises demo_env ChannelFetch (Some "UC1") false "interval"
           None None (Some "v1") 9 s (IntervalTrigger 86400000000 (9 + 86400000000))).
  - reflexivity.
  - vm_compute. eexists. reflexivity.
  - reflexivity.
Defined.

(** X5.  The made-up ids are only as fine as the clock's seconds: after a
    call without a job id has stored its job, a second call without a job
    id for the same operation and target, made while the clock still
    shows the same second, raises [ConflictingIdError] and adds nothing,
    whatever schedule it asks for. *)
Theorem schedule_twice_within_a_second (env : Env) (operation : Operation)
    (target : string) (ic ic' : bool) (st st' : string)
    (interval interval' : option (gmap string Z))
    (cron cron' : option (gmap string string))
    (now now' : Z) (s : State) (id : string) (t' : Trigger) :
  let r := schedule env operation (Some target) ic st interval cron None now s in
  fst r = Ret id ->
  env_strftime env "%Y%m%d%H%M%S" now' = env_strftime env "%Y%m%d%H%M%S" now ->
  fst (_parse_schedule env st' interval' cron' now' (snd r)) = Ret t' ->
  let r' := schedule env operation (Some target) ic' st' interval' cron' None now'
                     (snd r) in
  fst r' = Raise (conflicting_id_error id) /\ jobs (snd r') = jobs (snd r).
Proof.
  cbn zeta. intros Hr Hsec Hp'.
  assert (Hg : forall n, job_id_of env operation (Some target) None n =
                         Ret (generated_id env operation target n)).
  { intros n. unfold job_id_of. cbn. by destruct operation. }
  assert (Hsame : generated_id env operation target now' =
                  generated_id env operation target now).
  { unfold generated_id. by rewrite Hsec. }
  assert (Hin : id = generated_id env operation target now /\
                is_Some (jobs (snd (schedule env operation (Some target) ic st
                                             interval cron None now s)) !! id)).
  { revert Hr. rewrite schedule_cases, Hg. cbn zeta.
    destruct (fst (_parse_schedule env st interval cron now s)); try done.
    destruct (jobs s !! generated_id env operation target now); try done.
    cbn. intros [= <-]. split; [ done | ]. rewrite lookup_insert_eq. by eexists. }
  destruct Hin as [-> [j Hj]].
  rewrite (schedule_cases env operation (Some target) ic' st'), Hg, Hsame, Hp'.
  cbn zeta. rewrite Hj. cbn [fst snd]. split; [ done | ].
  apply parse_schedule_same_jobs.
Qed.

Lemma schedule_twice_within_a_second_witness :
  let r := schedule demo_env ChannelFetch (Some "UC1") false "interval" None None
                    None 0 (_setup_scheduler ∅) in
  let r' := schedule demo_env ChannelFetch (Some "UC1") true "cron" None None None
                     400000 (snd r) in
  fst r' = Raise (conflicting_id_error "channel_UC1_20240101000000") /\
  jobs (snd r') = jobs (snd r).
Proof.
  intros r.
  apply (schedule_twice_within_a_second demo_env ChannelFetch "UC1" false true
           "interval" "cron" None None None None 0 400000 (_setup_scheduler ∅)
           "channel_UC1_20240101000000" (CronTrigger {[ "hour" := "0"; "minute" := "0" ]})).
  - reflexivity.
  - reflexivity.
  - reflexivity.
Defined.
(** X6.  Without a job id and without a target, the four methods part
    ways: [schedule_search_scrape] fails on the missing query before it
    looks at the schedule or the scheduler, while the other three go on
    and store a job for the target [None] under an id that spells it
    [None]. *)
Theorem schedule_without_id_and_target (env : Env) (include_comments : bool)
    (schedule_type : string) (interval : option (gmap string Z))
    (cron : option (gmap string string)) (job_id : option string) (now : Z)
    (s : State) :
  truthy job_id = false ->
  schedule env SearchFetch None include_comments schedule_type interval cron
           job_id now s =
    (Raise (Exn AttributeError "'NoneType' object has no attribute 'replace'"), s) /\
  forall operation t,
    operation <> SearchFetch ->
    fst (_parse_schedule env schedule_type interval cron now s) = Ret t ->
    jobs s !! generated_id env operation "None" now = None ->
    let r := schedule env operation None include_comments schedule_type interval
                      cron job_id now s in
    fst r = Ret (generated_id env operation "None" now) /\
    exists job, jobs (snd r) !! generated_id env operation "None" now = Some job /\
                func job = operation /\ args job = (None, include_comments).
Proof.
  intros Hid. split.
  - rewrite schedule_cases. unfold job_id_of. by rewrite Hid.
  - intros operation t Hop Hp Hn. cbn zeta. rewrite schedule_cases.
    assert (Hg : job_id_of env operation None job_id now =
                 Ret (generated_id env operation "None" now)).
    { unfold job_id_of. rewrite Hid. by destruct operation. }
    rewrite Hg, Hp. cbn zeta. rewrite Hn. cbn. split; [ done | ].
    eexists. rewrite lookup_insert_eq. done.
Qed.

Lemma schedule_without_id_and_target_witness :
  schedule demo_env SearchFetch None false "weekly" None None (Some "") 0
           (_setup_scheduler ∅) =
  (Raise (Exn AttributeError "'NoneType' object has no attribute 'replace'"),
   _setup_scheduler ∅).
Proof.
  apply (schedule_without_id_and_target demo_env false "weekly" None None (Some "") 0
           (_setup_scheduler ∅)).
  reflexivity.
Defined.


(* ===================================================================== *)
(** ** Loading the configured jobs *)
(* ===================================================================== *)

Lemma parse_schedule_outcome env st interval cron now s s' :
  fst (_parse_schedule env st interval cron now s) =
  fst (_parse_schedule env st interval cron now s').
Proof.
  unfold _parse_schedule.
  destruct (String.eqb st "interval"); [ done | ].
  destruct (String.eqb st "cron"); [ done | ].
  unfold bind, emit, lift. simpl.
  by destruct (IntervalTrigger_init _ now).
Qed.

(** The loop body for an entry of one of the four types with an id of its
    own is the call of the matching [schedule_*] method. *)
Lemma add_scheduled_job_known env op entry id now s :
  cj_type entry = Some (type_name op) ->
  cj_id entry = Some id ->
  add_scheduled_job env entry now s =
  (let r := schedule env op (cj_target op entry)
              (default (default_include_comments op) (cj_include_comments entry))
              (default "interval" (cj_schedule_type entry))
              (cj_interval entry) (cj_cron entry) (Some id) now s in
   (match fst r with
    | Ret _ => Ret tt
    | Raise e => Raise e
    | Diverge => Diverge
    end, snd r)).
Proof.
  intros Hty Hid. unfold add_scheduled_job. rewrite Hty, Hid.
  destruct op; cbn [type_name];
    repeat first [ rewrite bool_decide_eq_true_2 by (exact eq_refl)
                 | rewrite bool_decide_eq_false_2 by discriminate ];
    cbn [schedule cj_target default_include_comments]; unfold bind, ret;
    match goal with |- context [?f env ?a ?b ?c ?d ?e ?g now s] =>
      destruct (f env a b c d e g now s) as [[x | ex | ] s1] end; reflexivity.
Qed.

(** [start] is the start of the library's scheduler, its log line, and
    the loop over the configured entries. *)
Lemma start_unfold env scheduled_jobs clock s :
  start env scheduled_jobs clock s =
  add_scheduled_jobs_from env 0 scheduled_jobs clock
    (set_trace (trace s ++ [Started; Log INFO "Scheduler started"]) s).
Proof.
  unfold start, _add_scheduled_jobs_from_config, bind, emit. cbn [fst snd].
  unfold set_trace. cbn. by rewrite <- app_assoc.
Qed.

Lemma parse_schedule_trace env st interval cron now s x :
  x ∈ trace s -> x ∈ trace (snd (_parse_schedule env st interval cron now s)).
Proof.
  intros Hx. unfold _parse_schedule.
  destruct (String.eqb _ "interval"); [ done | ].
  destruct (String.eqb _ "cron"); [ done | ].
  unfold bind, emit, lift. simpl.
  apply elem_of_app; by left.
Qed.

(** X8.  [start] does not survive a configured id that the job store
    already holds (as it does when the process is started again over the
    persisted store): the first entry of a known type whose id is taken
    makes [start] raise [ConflictingIdError], after the scheduler was
    started, and none of the entries after it is loaded. *)
Theorem start_fails_on_stored_id (env : Env) (op : Operation) (entry : ConfigJob)
    (rest : list ConfigJob) (clock : nat -> Z) (s : State) (id : string)
    (t : Trigger) :
  cj_type entry = Some (type_name op) ->
  cj_id entry = Some id -> id <> "" ->
  is_Some (jobs s !! id) ->
  fst (_parse_schedule env (default "interval" (cj_schedule_type entry))
                       (cj_interval entry) (cj_cron entry) (clock 0%nat) s) = Ret t ->
  let r := start env (entry :: rest) clock s in
  fst r = Raise (conflicting_id_error id) /\
  only_trace s (snd r) /\
  Started ∈ trace (snd r).
Proof.
  intros Hty Hid Hne Hin Hp. cbn zeta. rewrite start_unfold.
  set (s0 := set_trace _ s).
  cbn [add_scheduled_jobs_from]. unfold bind.
  rewrite (add_scheduled_job_known env op entry id) by done.
  cbn zeta.
  assert (Ht : truthy (Some id) = true).
  { simpl. apply negb_true_iff. by apply String.eqb_neq. }
  rewrite (parse_schedule_outcome env _ _ _ _ s s0) in Hp.
  destruct (schedule_taken_id_raises_aux env op (cj_target op entry)
              (default (default_include_comments op) (cj_include_comments entry))
              (default "interval" (cj_schedule_type entry)) (cj_interval entry)
              (cj_cron entry) (Some id) (clock 0%nat) s0 t Ht Hin Hp)
    as (Hr & Ho & Hs).
  rewrite Hr. cbn [fst snd]. split; [ done | ]. split.
  - eapply only_trace_trans; [ | exact Ho ]. subst s0. repeat split.
  - rewrite Hs. apply parse_schedule_trace. subst s0. simpl. set_solver.
Qed.

Lemma start_fails_on_stored_id_witness :
  let s := snd (schedule_video_scrape demo_env (Some "abc") true "interval" None
                                      None (Some "j1") 0 (_setup_scheduler ∅)) in
  let entry := mkConfigJob (Some "channel") (Some "j1") (Some "UC1") None None None
                           None None None None in
  let later := mkConfigJob (Some "video") (Some "j2") None (Some "xyz") None None
                           None None None None in
  let r := start demo_env [entry; later] (fun _ => 7%Z) s in
  fst r = Raise (conflicting_id_error "j1") /\
  only_trace s (snd r) /\
  Started ∈ trace (snd r).
Proof.
  intros s entry later.
  apply (start_fails_on_stored_id demo_env ChannelFetch entry [later] (fun _ => 7%Z) s
           "j1" (IntervalTrigger 86400000000 (7 + 86400000000))).
  - reflexivity.
  - reflexivity.
  - discriminate.
  - vm_compute. eexists. reflexivity.
  - reflexivity.
Defined.

(** X9.  An entry whose [type] is none of the four (a missing [type]
    included) costs one line in the log and nothing else: the job store is
    not touched and the loop goes on with the next entry. *)
Theorem unknown_job_type_is_skipped (env : Env) (entry : ConfigJob)
    (rest : list ConfigJob) (clock : nat -> Z) (k : nat) (s : State) :
  (forall op, cj_type entry <> Some (type_name op)) ->
  add_scheduled_jobs_from env k (entry :: rest) clock s =
  add_scheduled_jobs_from env (S k) rest clock
    (set_trace (trace s ++ [Log ERROR ("Unknown job type: " +:+ fmt (cj_type entry))]) s).
Proof.
  intros Hty. cbn [add_scheduled_jobs_from]. unfold bind at 1.
  unfold add_scheduled_job.
  rewrite (bool_decide_eq_false_2 _ (Hty ChannelFetch)).
  rewrite (bool_decide_eq_false_2 _ (Hty VideoFetch)).
  rewrite (bool_decide_eq_false_2 _ (Hty PlaylistFetch)).
  rewrite (bool_decide_eq_false_2 _ (Hty SearchFetch)).
  reflexivity.
Qed.

Lemma unknown_job_type_is_skipped_witness :
  let entry := mkConfigJob (Some "livestream") (Some "j1") None None None None
                           None None None None in
  let later := mkConfigJob (Some "video") (Some "j2") None (Some "xyz") None None
                           None None None None in
  add_scheduled_jobs_from demo_env 0 [entry; later] (fun _ => 7%Z) (_setup_scheduler ∅) =
  add_scheduled_jobs_from demo_env 1 [later] (fun _ => 7%Z)
    (set_trace (trace (_setup_scheduler ∅) ++
                [Log ERROR ("Unknown job type: " +:+ fmt (cj_type entry))])
               (_setup_scheduler ∅)).
Proof.
  intros entry later.
  apply (unknown_job_type_is_skipped demo_env entry [later] (fun _ => 7%Z) 0
           (_setup_scheduler ∅)).
  intros op. destruct op; discriminate.
Defined.

(** X10.  What the loader fills in for an entry that gives only its type,
    its id and its target: comments are fetched for a video and for
    nothing else, and the job runs daily, for the first time one day
    after it was loaded. *)
Theorem config_entry_defaults (env : Env) (op : Operation) (entry : ConfigJob)
    (id : string) (now : Z) (s : State) :
  cj_type entry = Some (type_name op) ->
  cj_id entry = Some id -> id <> "" ->
  cj_include_comments entry = None ->
  cj_schedule_type entry = None ->
  cj_interval entry = None ->
  jobs s !! id = None ->
  let r := add_scheduled_job env entry now s in
  fst r = Ret tt /\
  jobs (snd r) =
    <[id := mkJob op (cj_target op entry, default_include_comments op)
                  (name_prefix op +:+ fmt (cj_target op entry))
                  (IntervalTrigger one_day (now + one_day))
                  (Some (now + one_day)%Z)]> (jobs s).
Proof.
  intros Hty Hid Hne Hic Hst Hiv Hn. cbn zeta.
  rewrite (add_scheduled_job_known env op entry id) by done.
  rewrite Hic, Hst, Hiv. cbn [default]. cbn zeta. rewrite schedule_cases.
  assert (Ht : truthy (Some id) = true).
  { simpl. apply negb_true_iff. by apply String.eqb_neq. }
  unfold job_id_of. rewrite Ht. cbn [fmt].
  rewrite parse_schedule_missing_interval by done. cbn [fst snd].
  rewrite Hn. cbn [fst snd set_trace set_jobs jobs].
  split; [ done | ]. do 2 f_equal.
  change one_day with 86400000000%Z.
  cbn [get_next_fire_time]. destruct (Z.ltb_spec now (now + 86400000000)); [ done | lia ].
Qed.

Lemma config_entry_defaults_witness :
  let entry := mkConfigJob (Some "video") (Some "j2") None (Some "xyz") None None
                           None None None None in
  let r := add_scheduled_job demo_env entry 7 (_setup_scheduler ∅) in
  fst r = Ret tt /\
  jobs (snd r) =
    <["j2" := mkJob VideoFetch (Some "xyz", true) ("Video Scrape: " +:+ "xyz")
                    (IntervalTrigger one_day (7 + one_day))
                    (Some (7 + one_day)%Z)]> (jobs (_setup_scheduler ∅)).
Proof.
  intros entry.
  apply (config_entry_defaults demo_env VideoFetch entry "j2" 7 (_setup_scheduler ∅));
    try reflexivity.
  discriminate.
Defined.
(* ===================================================================== *)
(** ** The control surface on a job that is in the store *)
(* ===================================================================== *)

(** X11.  [run_job_now] returns [False] for exactly one reason, an id
    that is not in the store; a scrape that fails is not among them.  For
    such an id nothing is fetched and only the "not found" line is
    logged. *)
Theorem run_job_now_false_iff_absent (env : Env) (id : string) (s : State) :
  (fst (run_job_now env id s) = Ret false <-> jobs s !! id = None) /\
  (jobs s !! id = None ->
   run_job_now env id s =
   (Ret false, set_trace (trace s ++ [Log ERROR ("Job " +:+ id +:+ " not found")]) s)).
Proof.
  assert (Habs : jobs s !! id = None ->
            run_job_now env id s =
            (Ret false,
             set_trace (trace s ++ [Log ERROR ("Job " +:+ id +:+ " not found")]) s)).
  { intros Hn. unfold run_job_now, try_except, bind, get_job. by rewrite Hn. }
  split; [ | exact Habs ]. split.
  - destruct (jobs s !! id) as [job | ] eqn:Hj; [ | done ].
    rewrite (run_job_now_result env id job s Hj). cbn [fst].
    by destruct (wrapper_outcome _).
  - intros Hn. by rewrite Habs.
Qed.

Lemma remove_job_present id j s :
  jobs s !! id = Some j ->
  remove_job id s =
  (Ret true,
   set_trace (trace s ++ [Log INFO ("Removed job " +:+ id)])
             (set_jobs (delete id (jobs s)) s)).
Proof.
  intros E. unfold remove_job, try_except, bind, APS.remove_job, emit, ret.
  by rewrite E.
Qed.

(** X12.  Removing a stored job takes that job, and no other, out of the
    store and returns [True]; a second removal of the same id returns
    [False].  The executor is not told: the firings of the job that are in
    flight stay in flight. *)
Theorem remove_job_removes_one (id : string) (j : Job) (s : State) :
  jobs s !! id = Some j ->
  let r := remove_job id s in
  fst r = Ret true /\
  jobs (snd r) !! id = None /\
  (forall id', id' <> id -> jobs (snd r) !! id' = jobs s !! id') /\
  fst (remove_job id (snd r)) = Ret false /\
  running (snd r) = running s /\
  in_flight (snd r) id = in_flight s id.
Proof.
  intros Hj. cbn zeta. rewrite (remove_job_present id j s Hj). cbn [fst snd].
  split; [ done | ]. split; [ apply lookup_delete_eq | ]. split.
  - intros id' Hne. by apply lookup_delete_ne.
  - rewrite remove_job_absent by apply lookup_delete_eq. done.
Qed.

Lemma remove_job_removes_one_witness :
  let job := mkJob VideoFetch (Some "abc", true) "Video Scrape: abc"
                   (IntervalTrigger 1000000 1000000) (Some 1000000%Z) in
  let s := exec demo_env (Tick 5 1000000%Z) (_setup_scheduler {[ "v1" := job ]}) in
  let r := remove_job "v1" s in
  fst r = Ret true /\
  jobs (snd r) !! "v1" = None /\
  (forall id', id' <> "v1" -> jobs (snd r) !! id' = jobs s !! id') /\
  fst (remove_job "v1" (snd r)) = Ret false /\
  running (snd r) = running s /\
  in_flight (snd r) "v1" = in_flight s "v1".
Proof.
  intros job s.
  apply (remove_job_removes_one "v1"
           (with_next_run_time (Some 2000000%Z) job) s).
  vm_compute. reflexivity.
Defined.

Lemma resume_job_present env id j n now s :
  jobs s !! id = Some j ->
  get_next_fire_time (env_cron_fire env) (trigger j) None now = Some n ->
  resume_job env id now s =
  (Ret true,
   set_trace (trace s ++ [Log INFO ("Resumed job " +:+ id)])
             (set_jobs (<[id := with_next_run_time (Some n) j]> (jobs s)) s)).
Proof.
  intros E Hn. unfold resume_job, try_except, bind, APS.resume_job, emit, ret.
  by rewrite E, Hn.
Qed.

(** The first instant of the grid [sd + k * i] that is not before [now]. *)
Lemma interval_next_on_grid cf i sd now :
  (0 < i)%Z ->
  exists n k,
    get_next_fire_time cf (IntervalTrigger i sd) None now = Some n /\
    n = (sd + i * k)%Z /\ (0 <= k)%Z /\ (now <= n)%Z /\
    (n < now + i \/ n = sd)%Z.
Proof.
  intros Hi. cbn [get_next_fire_time].
  destruct (Z.ltb_spec now sd) as [Hlt | Hge].
  - exists sd, 0%Z. repeat split; [ lia .. | by right ].
  - unfold ceil_div. set (a := (now - sd)%Z).
    pose proof (Z.div_mod (- a) i ltac:(lia)) as Hdm.
    pose proof (Z.mod_pos_bound (- a) i Hi) as Hb.
    exists (sd + i * - (- a / i))%Z, (- (- a / i))%Z.
    repeat split; [ nia | nia | left; nia ].
Qed.

(** X13.  Pausing a job with an interval trigger and resuming it later
    brings the job back as it was stored, but for its next run time: that
    is computed afresh from the trigger, as the first instant of the
    trigger's grid (start date plus a whole number of periods) that is not
    before the instant of resumption; the run time the job had before the
    pause plays no part. *)
Theorem pause_then_resume (env : Env) (id : string) (j : Job) (i sd now : Z)
    (s : State) :
  jobs s !! id = Some j ->
  trigger j = IntervalTrigger i sd ->
  (0 < i)%Z ->
  let s1 := snd (pause_job id s) in
  let r := resume_job env id now s1 in
  fst r = Ret true /\
  exists n k,
    jobs (snd r) = <[id := with_next_run_time (Some n) j]> (jobs s) /\
    n = (sd + i * k)%Z /\ (0 <= k)%Z /\ (now <= n)%Z /\ (n < now + i \/ n = sd)%Z.
Proof.
  intros Hj Ht Hi. cbn zeta. rewrite (pause_job_present id j s Hj). cbn [snd].
  destruct (interval_next_on_grid (env_cron_fire env) i sd now Hi)
    as (n & k & Hn & Hgrid).
  rewrite (resume_job_present env id (with_next_run_time None j) n now).
  - cbn [fst snd]. split; [ done | ]. exists n, k. split; [ | exact Hgrid ].
    cbn. by rewrite insert_insert_eq.
  - cbn. by rewrite lookup_insert_eq.
  - cbn [trigger with_next_run_time]. by rewrite Ht.
Qed.

Lemma pause_then_resume_witness :
  let job := mkJob VideoFetch (Some "abc", true) "Video Scrape: abc"
                   (IntervalTrigger 1000000 1000000) (Some 1000000%Z) in
  let s := _setup_scheduler {[ "v1" := job ]} in
  let r := resume_job demo_env "v1" 4500000 (snd (pause_job "v1" s)) in
  fst r = Ret true /\
  exists n k,
    jobs (snd r) = <["v1" := with_next_run_time (Some n) job]> (jobs s) /\
    n = (1000000 + 1000000 * k)%Z /\ (0 <= k)%Z /\ (4500000 <= n)%Z /\
    (n < 4500000 + 1000000 \/ n = 1000000)%Z.
Proof.
  intros job s.
  apply (pause_then_resume demo_env "v1" job 1000000 1000000 4500000 s).
  - reflexivity.
  - reflexivity.
  - lia.
Defined.
(* ===================================================================== *)
(** ** The command line *)
(* ===================================================================== *)

(** X14.  The [run], [remove], [pause] and [resume] actions without a
    [--job-id] (or with an empty one) print their error line and do
    nothing else: the scheduler is not started, no configured job is
    loaded, and the job store and the executor are not touched. *)
Theorem actions_require_job_id (env : Env) (scheduled_jobs : list ConfigJob)
    (args : Cli.Args) (clock : nat -> Z) (now : Z) (s : State) :
  truthy (Cli.job_id args) = false ->
  main_run env scheduled_jobs (Cli.job_id args) clock s =
    (Ret tt, set_trace (trace s ++
               [Print "Error: --job-id is required for 'run' action"]) s) /\
  Cli.main_remove env scheduled_jobs args clock s =
    (Ret tt, set_trace (trace s ++
               [Print "Error: --job-id is required for 'remove' action"]) s) /\
  Cli.main_pause env scheduled_jobs args clock s =
    (Ret tt, set_trace (trace s ++
               [Print "Error: --job-id is required for 'pause' action"]) s) /\
  Cli.main_resume env scheduled_jobs args clock now s =
    (Ret tt, set_trace (trace s ++
               [Print "Error: --job-id is required for 'resume' action"]) s).
Proof.
  intros Hid.
  unfold main_run, Cli.main_remove, Cli.main_pause, Cli.main_resume.
  rewrite Hid. done.
Qed.

Lemma actions_require_job_id_witness :
  let args := Cli.mkArgs (Some "") None None None None false "interval" "hours" 1
                         "0" "0" "*" "*" "*" in
  let entry := mkConfigJob (Some "video") (Some "j2") None (Some "xyz") None None
                           None None None None in
  Cli.main_remove demo_env [entry] args (fun _ => 0%Z) (_setup_scheduler ∅) =
    (Ret tt, set_trace (trace (_setup_scheduler ∅) ++
               [Print "Error: --job-id is required for 'remove' action"])
               (_setup_scheduler ∅)).
Proof.
  intros args entry.
  apply (actions_require_job_id demo_env [entry] args (fun _ => 0%Z) 0 (_setup_scheduler ∅)).
  reflexivity.
Defined.






(* ===================================================================== *)
(** ** A stored job keeps its schedule *)
(* ===================================================================== *)

Lemma same_schedule_refl j : same_schedule j j.
Proof. by repeat split. Qed.

Lemma same_schedule_next n j : same_schedule j (with_next_run_time n j).
Proof. by repeat split. Qed.

#[global] Instance keeps_no_new_jobs_frame (s0 : State) : Frame (keeps (no_new_jobs s0)).
Proof. split; unfold keeps; auto. Qed.

#[global] Instance keeps_jobs_kept_frame (s0 : State) : Frame (keeps (jobs_kept s0)).
Proof. split; unfold keeps; auto. Qed.

Section StoreChanges.

Context (s0 : State).

Lemma no_new_remove_job id : preserves (keeps (no_new_jobs s0)) (APS.remove_job id).
Proof.
  intros s Hs. unfold APS.remove_job. destruct (jobs s !! id); [ | exact Hs ].
  intros id' j'. cbn. intros H. apply lookup_delete_Some in H as [_ H]. by apply Hs.
Qed.

(** Writing back a job of [s0] with another next run time. *)
Lemma no_new_insert id j n s :
  jobs s0 !! id = Some j ->
  no_new_jobs s0 s ->
  no_new_jobs s0 (set_jobs (<[id := with_next_run_time n j]> (jobs s)) s).
Proof.
  intros Hj Hs id' j'. cbn. intros H.
  apply lookup_insert_Some in H as [[<- <-] | [_ H]]; [ | by apply Hs ].
  exists j. split; [ done | apply same_schedule_next ].
Qed.

Lemma no_new_pause_job id :
  preserves (keeps (no_new_jobs s0)) (APS.pause_job id).
Proof.
  intros s Hs. unfold APS.pause_job.
  destruct (jobs s !! id) as [j | ] eqn:E; [ | exact Hs ].
  intros id' j'. cbn. intros H.
  apply lookup_insert_Some in H as [[<- <-] | [_ H]]; [ | by apply Hs ].
  destruct (Hs _ _ E) as (j0 & Hj0 & Hsame). exists j0. split; [ done | ].
  destruct Hsame as (? & ? & ? & ?). by repeat split.
Qed.

Lemma no_new_resume_job cf id now :
  preserves (keeps (no_new_jobs s0)) (APS.resume_job cf id now).
Proof.
  intros s Hs. unfold APS.resume_job.
  destruct (jobs s !! id) as [j | ] eqn:E; [ | exact Hs ].
  destruct (get_next_fire_time cf (trigger j) None now).
  - intros id' j'. cbn. intros H.
    apply lookup_insert_Some in H as [[<- <-] | [_ H]]; [ | by apply Hs ].
    destruct (Hs _ _ E) as (j0 & Hj0 & Hsame). exists j0. split; [ done | ].
    destruct Hsame as (? & ? & ? & ?). by repeat split.
  - by apply no_new_remove_job.
Qed.

Lemma no_new_process_job cf fuel now idj :
  jobs s0 !! fst idj = Some (snd idj) ->
  preserves (keeps (no_new_jobs s0)) (process_job cf fuel now idj).
Proof.
  intros Hj s. unfold process_job.
  destruct (get_run_times cf fuel (trigger idj.2) (next_run_time idj.2) now) as [rts | ];
    [ | by intros ? ].
  cbn zeta. destruct (last _) as [r | ]; [ | by intros ? ].
  apply preserves_bind; [ apply _ | | ].
  - unfold submit_or_skip. apply preserves_try_except_base; [ apply _ | | ].
    + intros s1 Hs1. unfold submit_job.
      destruct (max_instances (defaults s1) <=? running_instances s1 idj.1)%nat; exact Hs1.
    + intros e. apply preserves_if; apply preserves_emit; apply _.
  - intros _ s1 Hs1. unfold update_next_run.
    destruct (get_next_fire_time cf (trigger idj.2) (Some r) now).
    + by apply no_new_insert.
    + by apply no_new_remove_job.
Qed.

Lemma kept_add_job cf f t a id nm now :
  preserves (keeps (jobs_kept s0)) (add_job cf f t a id nm now).
Proof.
  intros s Hs. unfold add_job. destruct (jobs s !! id) eqn:E; [ exact Hs | ].
  intros id' j Hj. cbn. rewrite lookup_insert_ne; [ by apply Hs | ].
  intros <-. apply Hs in Hj. congruence.
Qed.

Lemma kept_schedule env operation target ic st interval cron job_id now :
  preserves (keeps (jobs_kept s0))
            (schedule env operation target ic st interval cron job_id now).
Proof.
  destruct operation; unfold schedule, schedule_channel_scrape,
    schedule_video_scrape, schedule_playlist_scrape, schedule_search_scrape;
    repeat first
      [ apply preserves_bind; [ apply _ | | intros ? ]
      | apply preserves_parse_schedule; apply _
      | apply preserves_emit; apply _
      | apply preserves_ret; apply _
      | apply preserves_raise; apply _
      | apply kept_add_job
      | apply preserves_if
      | match goal with |- preserves _ (match ?q with _ => _ end) => destruct q end ].
Qed.

Lemma kept_start env scheduled_jobs clock :
  preserves (keeps (jobs_kept s0)) (start env scheduled_jobs clock).
Proof.
  unfold start, _add_scheduled_jobs_from_config.
  do 2 (apply preserves_bind; [ apply _ | apply preserves_emit; apply _ | intros _ ]).
  generalize 0%nat. induction scheduled_jobs as [ | j rest IH]; intros k; simpl.
  - apply preserves_ret; apply _.
  - apply preserves_bind; [ apply _ | | intros _; apply IH ].
    unfold add_scheduled_job.
    repeat (apply preserves_if;
            [ apply preserves_bind;
              [ apply _ | | intros ?; apply preserves_ret; apply _ ] | ]).
    + exact (kept_schedule env ChannelFetch _ _ _ _ _ _ _).
    + exact (kept_schedule env VideoFetch _ _ _ _ _ _ _).
    + exact (kept_schedule env PlaylistFetch _ _ _ _ _ _ _).
    + exact (kept_schedule env SearchFetch _ _ _ _ _ _ _).
    + apply preserves_emit; apply _.
Qed.

End StoreChanges.

Lemma no_new_jobs_refl s : no_new_jobs s s.
Proof. intros id j Hj. exists j. split; [ done | apply same_schedule_refl ]. Qed.

Lemma jobs_kept_refl s : jobs_kept s s.
Proof. by intros id j Hj. Qed.

Lemma same_jobs_no_new s s' : same_jobs s s' -> no_new_jobs s s'.
Proof. unfold same_jobs. intros E id j. rewrite E. apply no_new_jobs_refl. Qed.

(** An operation other than scheduling and loading adds no job and leaves
    the schedule of every job it keeps as it was. *)
Lemma exec_no_new_jobs env o s : adds_jobs o = false -> no_new_jobs s (exec env o s).
Proof.
  intros Ho. destruct o; try discriminate; cbn [exec].
  - apply same_jobs_no_new. apply list_jobs_same_jobs.
  - unfold remove_job.
    apply (preserves_try_except (keeps (no_new_jobs s))); [ | | apply no_new_jobs_refl ].
    + apply preserves_bind; [ apply _ | apply no_new_remove_job | intros _ ].
      apply preserves_bind; [ apply _ | apply preserves_emit; apply _ | intros _ ].
      apply preserves_ret; apply _.
    + intros e. apply preserves_bind; [ apply _ | apply preserves_emit; apply _ | intros _ ].
      apply preserves_ret; apply _.
  - unfold pause_job.
    apply (preserves_try_except (keeps (no_new_jobs s))); [ | | apply no_new_jobs_refl ].
    + apply preserves_bind; [ apply _ | apply no_new_pause_job | intros _ ].
      apply preserves_bind; [ apply _ | apply preserves_emit; apply _ | intros _ ].
      apply preserves_ret; apply _.
    + intros e. apply preserves_bind; [ apply _ | apply preserves_emit; apply _ | intros _ ].
      apply preserves_ret; apply _.
  - unfold resume_job.
    apply (preserves_try_except (keeps (no_new_jobs s))); [ | | apply no_new_jobs_refl ].
    + apply preserves_bind; [ apply _ | apply no_new_resume_job | intros _ ].
      apply preserves_bind; [ apply _ | apply preserves_emit; apply _ | intros _ ].
      apply preserves_ret; apply _.
    + intros e. apply preserves_bind; [ apply _ | apply preserves_emit; apply _ | intros _ ].
      apply preserves_ret; apply _.
  - apply same_jobs_no_new. apply run_job_now_same_jobs.
  - unfold process_jobs.
    apply (preserves_for_each (keeps (no_new_jobs s))); [ | apply no_new_jobs_refl ].
    intros idj Hin. apply no_new_process_job.
    by apply get_due_jobs_lookup in Hin as [Hl _].
  - apply same_jobs_no_new. apply finish_firing_same_jobs.
  - by apply same_jobs_no_new.
Qed.

(** Scheduling and loading leave every stored job exactly as it was. *)
Lemma exec_jobs_kept env o s : adds_jobs o = true -> jobs_kept s (exec env o s).
Proof.
  intros Ho. destruct o; try discriminate; cbn [exec].
  - apply (kept_schedule s); apply jobs_kept_refl.
  - apply (kept_start s); apply jobs_kept_refl.
Qed.

(** X17.  There is no way to edit a stored job: through any one operation
    on the scheduler (a call of the control surface, a pass of the
    scheduler loop, a worker finishing, a restart), a job that is still
    in the store afterwards has the callable, the arguments, the name and
    the trigger it had before; only its next run time may differ, and
    not even that through scheduling or loading other jobs. *)
Theorem stored_job_keeps_its_schedule (env : Env) (o : op) (s : State)
    (id : string) (j j' : Job) :
  jobs s !! id = Some j ->
  jobs (exec env o s) !! id = Some j' ->
  same_schedule j j' /\ (adds_jobs o = true -> j' = j).
Proof.
  intros Hj Hj'. destruct (adds_jobs o) eqn:Ho.
  - pose proof (exec_jobs_kept env o s Ho id j Hj) as Hk.
    assert (j' = j) as -> by congruence.
    split; [ apply same_schedule_refl | done ].
  - destruct (exec_no_new_jobs env o s Ho id j' Hj') as (j0 & Hj0 & Hsame).
    assert (j0 = j) as -> by congruence. split; [ exact Hsame | discriminate ].
Qed.

Lemma stored_job_keeps_its_schedule_witness :
  let job := mkJob VideoFetch (Some "abc", true) "Video Scrape: abc"
                   (IntervalTrigger 1000000 1000000) (Some 1000000%Z) in
  let s := _setup_scheduler {[ "v1" := job ]} in
  same_schedule job (with_next_run_time (Some 4000000%Z) job) /\
  (adds_jobs (Tick 5 3000000%Z) = true -> with_next_run_time (Some 4000000%Z) job = job).
Proof.
  intros job s.
  apply (stored_job_keeps_its_schedule demo_env (Tick 5 3000000%Z) s "v1").
  - reflexivity.
  - vm_compute. reflexivity.
Defined.

(** X18.  Job ids enter the store through the [schedule_*] methods and
    the loading of the configuration only: after any other operation,
    every id in the store was in the store before. *)
Theorem only_scheduling_adds_jobs (env : Env) (o : op) (s : State) (id : string) :
  adds_jobs o = false ->
  is_Some (jobs (exec env o s) !! id) -> is_Some (jobs s !! id).
Proof.
  intros Ho [j' Hj']. destruct (exec_no_new_jobs env o s Ho id j' Hj') as (j & Hj & _).
  by exists j.
Qed.

Lemma only_scheduling_adds_jobs_witness :
  let job := mkJob VideoFetch (Some "abc", true) "Video Scrape: abc"
                   (IntervalTrigger 1000000 1000000) (Some 1000000%Z) in
  let s := _setup_scheduler {[ "v1" := job ]} in
  is_Some (jobs s !! "v1").
Proof.
  intros job s.
  apply (only_scheduling_adds_jobs demo_env (ResumeJob "v1" 2500000%Z) s "v1").
  - reflexivity.
  - vm_compute. eexists. reflexivity.
Defined.
(* ===================================================================== *)
(** ** A pass of the scheduler loop *)
(* ===================================================================== *)

(** The pass over one due job whose trigger always advances: it returns,
    and the job is written back with a next run time after [now], whether
    or not the executor took the firing. *)
Lemma process_job_advances cf fuel now id j t s :
  always_advances cf (trigger j) ->
  next_run_time j = Some t -> (t <= now)%Z -> (now - t < Z.of_nat fuel)%Z ->
  exists s1 n,
    process_job cf fuel now (id, j) s = (Ret tt, s1) /\
    (now < n)%Z /\
    jobs s1 = <[id := with_next_run_time (Some n) j]> (jobs s).
Proof.
  intros Hadv Ht Hdue Hfuel. unfold process_job. cbn [fst snd]. rewrite Ht.
  destruct (get_run_times_spec cf (trigger j) now Hadv fuel t Hfuel Hdue)
    as (rts & r & n & Hg & _ & Hlast & _ & Hn & Hnow).
  rewrite Hg. cbn zeta.
  assert (Hl : last (if coalesce (defaults s)
                     then match last (t :: rts) with Some r => [r] | None => [] end
                     else t :: rts) = Some r).
  { destruct (coalesce (defaults s)); [ | exact Hlast ]. by rewrite Hlast. }
  rewrite Hl. unfold bind.
  destruct (submit_or_skip_result id j
              (if coalesce (defaults s)
               then match last (t :: rts) with Some r => [r] | None => [] end
               else t :: rts) s) as (s1 & -> & Hj1 & _).
  unfold update_next_run. rewrite Hn. eexists _, n. split; [ reflexivity | ].
  split; [ exact Hnow | ]. cbn. by rewrite Hj1.
Qed.

Lemma process_due_list cf fuel now l s :
  (forall x, x ∈ l ->
     always_advances cf (trigger x.2) /\
     exists t, next_run_time x.2 = Some t /\ (t <= now)%Z /\ (now - t < Z.of_nat fuel)%Z) ->
  (forall id j, jobs s !! id = Some j -> is_due now j = true -> (id, j) ∈ l) ->
  fst (for_each l (process_job cf fuel now) s) = Ret tt /\
  (forall id j, jobs (snd (for_each l (process_job cf fuel now) s)) !! id = Some j ->
                is_due now j = false) /\
  (forall id, id ∉ map fst l ->
              jobs (snd (for_each l (process_job cf fuel now) s)) !! id = jobs s !! id).
Proof.
  revert s. induction l as [ | [id0 j0] l IH]; intros s Hl Hs.
  - cbn. split; [ done | ]. split; [ | done ]. intros id j Hj.
    destruct (is_due now j) eqn:Hd; [ | done ].
    specialize (Hs id j Hj Hd). by apply elem_of_nil in Hs.
  - destruct (Hl (id0, j0) ltac:(left)) as (Hadv & t & Ht & Hdue & Hfuel).
    destruct (process_job_advances cf fuel now id0 j0 t s Hadv Ht Hdue Hfuel)
      as (s1 & n & Hp & Hn & Hj1).
    cbn [for_each]. unfold bind. rewrite Hp.
    destruct (IH s1) as (Hret & Hnone & Hother).
    + intros x Hx. apply Hl. by right.
    + intros id j Hj Hd. rewrite Hj1 in Hj.
      apply lookup_insert_Some in Hj as [[<- <-] | [Hne Hj]].
      * exfalso. unfold is_due in Hd. cbn in Hd.
        destruct (Z.leb_spec n now); [ lia | discriminate ].
      * specialize (Hs id j Hj Hd). apply elem_of_cons in Hs as [Heq | Hin]; [ | done ].
        congruence.
    + split; [ exact Hret | ]. split; [ exact Hnone | ].
      intros id Hid. cbn [map fst] in Hid. apply not_elem_of_cons in Hid as [Hne Hid].
      rewrite (Hother id Hid), Hj1. by apply lookup_insert_ne.
Qed.

(** X19.  A pass of the scheduler loop at [now] over a store whose
    triggers always advance comes to an end and leaves no job due at
    [now]: every job that was due has been given a next run time after
    [now] (whether its firing was taken by the executor or refused), and
    no other job was touched.  ([fuel] bounds the run times collected per
    job; it is enough when it exceeds the lateness of every job.) *)
Theorem pass_leaves_nothing_due
    (cf : gmap string string -> option Z -> Z -> option Z) (fuel : nat) (now : Z)
    (s : State) :
  (forall id j, jobs s !! id = Some j -> always_advances cf (trigger j)) ->
  (forall id j t, jobs s !! id = Some j -> next_run_time j = Some t ->
                  (now - t < Z.of_nat fuel)%Z) ->
  let r := process_jobs cf fuel now s in
  fst r = Ret tt /\
  get_due_jobs now (snd r) = [] /\
  (forall id j, jobs s !! id = Some j -> is_due now j = false ->
                jobs (snd r) !! id = Some j).
Proof.
  intros Hadv Hfuel. cbn zeta. unfold process_jobs.
  destruct (process_due_list cf fuel now (get_due_jobs now s) s)
    as (Hret & Hnone & Hother).
  - intros [id j] Hin. apply get_due_jobs_lookup in Hin as [Hl Hd]. cbn [fst snd] in *.
    split; [ by eapply Hadv | ]. unfold is_due in Hd.
    destruct (next_run_time j) as [t | ] eqn:Ht; [ | discriminate ].
    exists t. split; [ done | ]. split; [ by apply Z.leb_le | by eapply Hfuel ].
  - intros id j Hj Hd. unfold get_due_jobs.
    apply list_elem_of_In, List.filter_In. split; [ | exact Hd ].
    apply list_elem_of_In. by apply elem_of_map_to_list.
  - split; [ exact Hret | ]. split.
    + unfold get_due_jobs at 1.
      match goal with |- List.filter ?f ?l = [] =>
        assert (Hall : forall x, x ∈ l -> f x = false) end.
      { intros [id j] Hin. apply elem_of_map_to_list in Hin. cbn. by eapply Hnone. }
      revert Hall. generalize (map_to_list (jobs (snd (for_each (get_due_jobs now s)
                                 (process_job cf fuel now) s)))).
      intros l. induction l as [ | x l IH]; intros Hall; [ done | ].
      cbn. rewrite (Hall x ltac:(left)). apply IH. intros y Hy. apply Hall. by right.
    + intros id j Hj Hd. rewrite Hother; [ done | ].
      intros Hin. apply list_elem_of_fmap in Hin as ([id' j'] & Hid & Hin).
      cbn in Hid. subst id'. apply get_due_jobs_lookup in Hin as [Hl Hd']. cbn in *.
      congruence.
Qed.

Lemma pass_leaves_nothing_due_witness :
  let a := mkJob VideoFetch (Some "abc", true) "Video Scrape: abc"
                 (IntervalTrigger 1000000 1000000) (Some 1000000%Z) in
  let b := mkJob ChannelFetch (Some "UC1", false) "Channel Scrape: UC1"
                 (IntervalTrigger 2000000 0) (Some 2000000%Z) in
  let c := mkJob SearchFetch (Some "cats", false) "Search Scrape: cats"
                 (IntervalTrigger 5000000 0) (Some 10000000%Z) in
  let s := _setup_scheduler {[ "v1" := a; "c1" := b; "s1" := c ]} in
  let r := process_jobs (env_cron_fire demo_env) (Z.to_nat 3000000) 3500000 s in
  fst r = Ret tt /\
  get_due_jobs 3500000 (snd r) = [] /\
  (forall id j, jobs s !! id = Some j -> is_due 3500000 j = false ->
                jobs (snd r) !! id = Some j).
Proof.
  intros a b c s.
  assert (Hjobs : forall id j, jobs s !! id = Some j -> j = a \/ j = b \/ j = c).
  { intros id j. subst s. cbn [jobs _setup_scheduler].
    rewrite !lookup_insert_Some, lookup_singleton_Some.
    intros [[_ <-] | [_ [[_ <-] | [_ [_ <-]]]]]; auto. }
  apply (pass_leaves_nothing_due (env_cron_fire demo_env) (Z.to_nat 3000000) 3500000 s).
  - intros id j Hj. destruct (Hjobs id j Hj) as [-> | [-> | ->]];
      apply interval_always_advances; lia.
  - intros id j t Hj Ht. destruct (Hjobs id j Hj) as [-> | [-> | ->]];
      cbn in Ht; injection Ht as <-; lia.
Defined.
(* ===================================================================== *)
(** ** The scraper: information about a video *)
(* ===================================================================== *)
Import ScraperProps.

(** X20.  [get_video_info] always answers with a record: when the API
    request (made only with an API client) and the pytube lookup each
    return or raise an [Exception], the call returns.  The record is the
    API's exactly when there is a client and the request yields an item;
    else it is pytube's when the lookup succeeds; else it is the error
    record, with the message of pytube's exception. *)
Theorem get_video_info_always_answers (b : Scraper.Backend) (video_id : option string) :
  (Scraper.youtube b = true -> comes_back (Scraper.api_video b video_id)) ->
  comes_back (Scraper.pytube_video b video_id) ->
  exists d,
    fst (Scraper.get_video_info b video_id) = Ret d /\
    match d with
    | Scraper.FromApi data =>
        Scraper.youtube b = true /\ Scraper.api_video b video_id = Ret (Some data)
    | Scraper.FromPytube data =>
        Scraper.pytube_video b video_id = Ret data /\
        (Scraper.youtube b = true ->
         forall data', Scraper.api_video b video_id <> Ret (Some data'))
    | Scraper.ErrorRecord v msg =>
        v = video_id /\
        (exists e, Scraper.pytube_video b video_id = Raise e /\ msg = exn_msg e) /\
        (Scraper.youtube b = true ->
         forall data', Scraper.api_video b video_id <> Ret (Some data'))
    end.
Proof.
  intros Hapi Hpy.
  assert (Hfb : exists d,
            fst (Scraper.video_info_fallback b video_id) = Ret d /\
            match d with
            | Scraper.FromApi _ => False
            | Scraper.FromPytube data => Scraper.pytube_video b video_id = Ret data
            | Scraper.ErrorRecord v msg =>
                v = video_id /\
                exists e, Scraper.pytube_video b video_id = Raise e /\ msg = exn_msg e
            end).
  { unfold Scraper.video_info_fallback, Scraper.wtry, Scraper.wbind, Scraper.call,
      Scraper.tell, Scraper.wret.
    destruct (Scraper.pytube_video b video_id) as [data | e | ]; cbn in *; try done.
    - by eexists (Scraper.FromPytube data).
    - rewrite Hpy. cbn. eexists (Scraper.ErrorRecord _ _). split; [ done | ]. eauto. }
  unfold Scraper.get_video_info.
  destruct (Scraper.youtube b) eqn:Hy.
  - specialize (Hapi eq_refl).
    unfold Scraper.wtry, Scraper.wbind, Scraper.call, Scraper.tell, Scraper.wret.
    destruct (Scraper.api_video b video_id) as [[data | ] | e | ] eqn:Ha; cbn in *;
      try done.
    + by eexists (Scraper.FromApi data).
    + destruct Hfb as (d & Hd & Hcase). exists d. split; [ done | ].
      destruct d as [data | data | v msg]; [ done | split; [ done | congruence ] | ].
      destruct Hcase as [Hv He]. split; [ done | ]. split; [ done | congruence ].
    + rewrite Hapi. cbn. destruct Hfb as (d & Hd & Hcase). exists d. split; [ done | ].
      destruct d as [data | data | v msg]; [ done | split; [ done | congruence ] | ].
      destruct Hcase as [Hv He]. split; [ done | ]. split; [ done | congruence ].
  - destruct Hfb as (d & Hd & Hcase). exists d. split; [ done | ].
    destruct d as [data | data | v msg]; [ done | split; [ done | congruence ] | ].
    destruct Hcase as [Hv He]. split; [ done | ]. split; [ done | congruence ].
Qed.

Lemma get_video_info_always_answers_witness :
  exists d,
    fst (Scraper.get_video_info Scraper.demo_backend (Some "abc")) = Ret d /\
    match d with
    | Scraper.FromApi data =>
        Scraper.youtube Scraper.demo_backend = true /\
        Scraper.api_video Scraper.demo_backend (Some "abc") = Ret (Some data)
    | Scraper.FromPytube data =>
        Scraper.pytube_video Scraper.demo_backend (Some "abc") = Ret data /\
        (Scraper.youtube Scraper.demo_backend = true ->
         forall data', Scraper.api_video Scraper.demo_backend (Some "abc") <> Ret (Some data'))
    | Scraper.ErrorRecord v msg =>
        v = Some "abc" /\
        (exists e, Scraper.pytube_video Scraper.demo_backend (Some "abc") = Raise e /\
                   msg = exn_msg e) /\
        (Scraper.youtube Scraper.demo_backend = true ->
         forall data', Scraper.api_video Scraper.demo_backend (Some "abc") <> Ret (Some data'))
    end.
Proof.
  apply (get_video_info_always_answers Scraper.demo_backend (Some "abc")).
  - intros _. reflexivity.
  - exact I.
Defined.


(** X21.  Which sources [get_video_info] consults: without an API client
    the API is never asked; an API answer with an item ends the call
    before pytube is looked at; and an API answer without items leads to
    the pytube lookup without a line in the log. *)
Theorem get_video_info_sources (b : Scraper.Backend) (video_id : option string) :
  (Scraper.youtube b = false ->
   Scraper.get_video_info b video_id = Scraper.video_info_fallback b video_id /\
   Scraper.ApiVideosList video_id ∉ snd (Scraper.get_video_info b video_id)) /\
  (forall data,
     Scraper.youtube b = true -> Scraper.api_video b video_id = Ret (Some data) ->
     Scraper.PytubeLookup video_id ∉ snd (Scraper.get_video_info b video_id)) /\
  (Scraper.youtube b = true -> Scraper.api_video b video_id = Ret None ->
   fst (Scraper.get_video_info b video_id) =
     fst (Scraper.video_info_fallback b video_id) /\
   snd (Scraper.get_video_info b video_id) =
     Scraper.ApiVideosList video_id :: snd (Scraper.video_info_fallback b video_id)).
Proof.
  split; [ | split ].
  - intros Hy. unfold Scraper.get_video_info. rewrite Hy. split; [ done | ].
    unfold Scraper.video_info_fallback, Scraper.wtry, Scraper.wbind, Scraper.call,
      Scraper.tell, Scraper.wret.
    destruct (Scraper.pytube_video b video_id) as [data | e | ]; cbn;
      try destruct (is_Exception (exn_class e)); cbn;
      rewrite ?elem_of_cons, elem_of_nil; intuition congruence.
  - intros data Hy Ha. unfold Scraper.get_video_info. rewrite Hy.
    unfold Scraper.wtry, Scraper.wbind, Scraper.call, Scraper.tell, Scraper.wret.
    rewrite Ha. cbn. rewrite ?elem_of_cons, elem_of_nil. intuition congruence.
  - intros Hy Ha. unfold Scraper.get_video_info. rewrite Hy.
    unfold Scraper.wtry at 1, Scraper.wbind at 1 2, Scraper.call at 1, Scraper.wret.
    rewrite Ha. cbn. done.
Qed.
(* ===================================================================== *)
(** ** The scraper: complete scrapes *)
(* ===================================================================== *)

Lemma get_video_info_no_comments b video_id :
  count Scraper.is_get_comments (snd (Scraper.get_video_info b video_id)) = 0%nat.
Proof.
  unfold count, Scraper.get_video_info, Scraper.video_info_fallback, Scraper.wtry,
    Scraper.wbind, Scraper.call, Scraper.tell, Scraper.wret.
  destruct (Scraper.youtube b);
    [ destruct (Scraper.api_video b video_id) as [[data | ] | e | ]; cbn;
      try destruct (is_Exception (exn_class e)); cbn | ];
    try reflexivity;
    destruct (Scraper.pytube_video b video_id) as [data' | e' | ]; cbn;
    try destruct (is_Exception (exn_class e')); reflexivity.
Qed.

(** X22.  The result of [run_video_scrape] carries a comments file and a
    comments count exactly when comments were asked for and
    [get_video_comments] returned some: the count is their number.
    Without [include_comments] the comments are not even fetched. *)
Theorem run_video_scrape_comments (b : Scraper.Backend) (video_id : option string)
    (include_comments : bool) (r : Scraper.VideoResult) :
  fst (Scraper.run_video_scrape b video_id include_comments) = Ret r ->
  Scraper.vr_video_id r = video_id /\
  (include_comments = false ->
   count Scraper.is_get_comments
         (snd (Scraper.run_video_scrape b video_id include_comments)) = 0%nat) /\
  match Scraper.vr_comments_file r, Scraper.vr_comments_count r with
  | Some path, Some n =>
      include_comments = true /\
      exists comments,
        Scraper.get_video_comments b video_id = Ret comments /\
        comments <> [] /\ n = length comments /\
        Scraper.save_data b ("video_" +:+ fmt video_id +:+ "_comments") "comments" =
          Ret path
  | None, None =>
      include_comments = false \/ Scraper.get_video_comments b video_id = Ret []
  | _, _ => False
  end.
Proof.
  pose proof (get_video_info_no_comments b video_id) as Hinfo.
  unfold Scraper.run_video_scrape.
  unfold Scraper.wbind at 1. cbn [Scraper.tell fst snd].
  unfold Scraper.wbind at 1 2.
  destruct (Scraper.get_video_info b video_id) as [[d | e | ] es]; cbn [fst snd] in *;
    try done.
  unfold Scraper.wbind at 1 2 3 4, Scraper.call at 1 2. cbn [fst snd].
  destruct (Scraper.save_data b ("video_" +:+ fmt video_id +:+ "_info") "videos")
    as [video_file | e | ]; cbn [fst snd]; try done.
  destruct include_comments.
  - unfold Scraper.wbind, Scraper.call, Scraper.tell, Scraper.wret.
    destruct (Scraper.get_video_comments b video_id) as [[ | c cs] | e | ] eqn:Hc;
      cbn [fst snd]; try done.
    + intros [= <-]. cbn. split; [ done | ]. split; [ done | by right ].
    + destruct (Scraper.save_data b ("video_" +:+ fmt video_id +:+ "_comments") "comments")
        as [path | e | ] eqn:Hs; cbn [fst snd]; try done.
      intros [= <-]. cbn. split; [ done | ]. split; [ done | ]. split; [ done | ].
      exists (c :: cs). by repeat split.
  - unfold Scraper.wbind, Scraper.call, Scraper.tell, Scraper.wret. cbn [fst snd].
    intros [= <-]. cbn. split; [ done | ]. split; [ | by left ].
    intros _. unfold count in *. rewrite !List.filter_app, !length_app, Hinfo. done.
Qed.

Lemma run_video_scrape_comments_witness :
  true = true /\
  exists comments,
    Scraper.get_video_comments Scraper.demo_backend (Some "abc") = Ret comments /\
    comments <> [] /\ 2%nat = length comments /\
    Scraper.save_data Scraper.demo_backend ("video_" +:+ "abc" +:+ "_comments") "comments" =
      Ret "comments/video_abc_comments".
Proof.
  pose proof (run_video_scrape_comments Scraper.demo_backend (Some "abc") true
                (Scraper.mkVideoResult (Some "abc") "videos/video_abc_info"
                   (Some "comments/video_abc_comments") (Some 2%nat)) eq_refl)
    as (_ & _ & H).
  exact H.
Defined.

Lemma wbind_Ret {A B} (m : Scraper.W A) (k : A -> Scraper.W B) (x : B) :
  fst (Scraper.wbind m k) = Ret x ->
  exists a, fst m = Ret a /\ fst (k a) = Ret x /\
            snd (Scraper.wbind m k) = snd m ++ snd (k a).
Proof.
  unfold Scraper.wbind. destruct m as [[a | e | ] es]; cbn; try done.
  intros H. by exists a.
Qed.

Lemma count_app p es1 es2 : count p (es1 ++ es2) = (count p es1 + count p es2)%nat.
Proof. unfold count. by rewrite List.filter_app, length_app. Qed.

Ltac winv H a Ha E :=
  apply wbind_Ret in H as (a & Ha & H & E); cbn beta in H.

(** The loop over the videos, when it returns. *)
Lemma comments_loop_spec b videos acc fs :
  fst (Scraper.comments_loop b videos acc) = Ret fs ->
  fs = acc ++ map (comments_path b) (List.filter (has_comments b) videos) /\
  count Scraper.is_get_comments (snd (Scraper.comments_loop b videos acc)) = length videos /\
  count Scraper.is_sleep (snd (Scraper.comments_loop b videos acc)) = length videos /\
  count Scraper.is_save (snd (Scraper.comments_loop b videos acc)) =
    length (List.filter (has_comments b) videos).
Proof.
  revert acc. induction videos as [ | v videos IH]; intros acc H.
  - cbn in *. injection H as <-. by rewrite app_nil_r.
  - cbn [Scraper.comments_loop] in *.
    winv H comments Hc E1. winv H acc' Hacc E2. winv H u Hu E3.
    rewrite E1, E2, E3. clear E1 E2 E3.
    destruct (IH acc' H) as (-> & Hg & Hs & Hv).
    rewrite !count_app, Hg, Hs, Hv. clear IH H Hg Hs Hv.
    unfold Scraper.call in Hc. cbn [fst] in Hc.
    assert (Hh : has_comments b v = match comments with [] => false | _ => true end).
    { unfold has_comments. rewrite Hc. by destruct comments. }
    cbn [List.filter]. rewrite Hh. clear Hh Hc.
    destruct comments as [ | c cs].
    + cbn in Hacc. injection Hacc as <-. cbn. done.
    + winv Hacc path Hp E4. rewrite E4. unfold Scraper.call in Hp. cbn [fst] in Hp.
      assert (Hpath : comments_path b v = path).
      { unfold comments_path. by rewrite Hp. }
      cbn in Hacc. injection Hacc as <-. cbn [map]. rewrite Hpath. cbn.
      split; [ by rewrite <- app_assoc | done ].
Qed.

(** The part that the three scrapes share after the videos were saved;
    [c] is the test [include_comments and videos]. *)
Lemma comments_part_spec b ic videos (c : bool) fs :
  (c = true <-> ic = true /\ videos <> []) ->
  fst (if c then Scraper.comments_loop b videos [] else Scraper.wret []) = Ret fs ->
  fs = (if ic then map (comments_path b) (List.filter (has_comments b) videos) else []) /\
  count Scraper.is_get_comments
        (snd (if c then Scraper.comments_loop b videos [] else Scraper.wret [])) =
    (if ic then length videos else 0%nat) /\
  count Scraper.is_sleep
        (snd (if c then Scraper.comments_loop b videos [] else Scraper.wret [])) =
    (if ic then length videos else 0%nat) /\
  count Scraper.is_save
        (snd (if c then Scraper.comments_loop b videos [] else Scraper.wret [])) =
    length fs.
Proof.
  intros Hc. destruct c.
  - destruct (proj1 Hc eq_refl) as [-> Hne]. intros H.
    destruct (comments_loop_spec b videos [] fs H) as (-> & Hg & Hs & Hv).
    rewrite Hg, Hs, Hv. cbn [app]. by rewrite length_map.
  - cbn. intros [= <-]. destruct ic; [ | done ].
    destruct videos as [ | v videos]; [ done | ].
    assert (false = true) by (apply Hc; done). discriminate.
Qed.

Lemma comments_test ic (videos : list string) (D : Decision (videos = [])) :
  ic && negb (@bool_decide (videos = []) D) = true <-> ic = true /\ videos <> [].
Proof.
  rewrite andb_true_iff, negb_true_iff, bool_decide_eq_false. done.
Qed.

Ltac comments_part Hfs :=
  match goal with
  | |- context [count Scraper.is_get_comments (snd ?m)] =>
      match m with
      | (if ?c then _ else _) =>
          match type of Hfs with
          | _ = Ret ?fs =>
              let Hc := fresh "Hc" in
              assert (Hc : c = true <-> _ = true /\ _ <> []) by apply comments_test;
              assert (fs = _ /\
                      count Scraper.is_get_comments (snd m) = _ /\
                      count Scraper.is_sleep (snd m) = _ /\
                      count Scraper.is_save (snd m) = length fs)
                as (Hf & Hg & Hs & Hsv)
                by exact (comments_part_spec _ _ _ c fs Hc Hfs)
          end
      end
  end.

(** X23.  What a channel, a playlist and a search scrape return when
    they return: [videos_count] is the number of videos listed; with
    [include_comments] the comments of every video are fetched, each
    fetch followed by one pause, and [comments_files] holds, in order,
    one file for each video that has comments; without it no comments
    are fetched and nothing pauses; one file is saved for the videos and
    one for each comments file. *)
Theorem list_scrapes_results (b : Scraper.Backend) (target : option string)
    (include_comments : bool) :
  (forall r,
     fst (Scraper.run_channel_scrape b target include_comments) = Ret r ->
     list_result_ok b (Scraper.get_channel_videos b target) include_comments r
                    (snd (Scraper.run_channel_scrape b target include_comments))) /\
  (forall r,
     fst (Scraper.run_playlist_scrape b target include_comments) = Ret r ->
     list_result_ok b (Scraper.get_playlist_videos b target) include_comments r
                    (snd (Scraper.run_playlist_scrape b target include_comments))) /\
  (forall r,
     fst (Scraper.run_search_scrape b target include_comments) = Ret r ->
     list_result_ok b (Scraper.search_videos b target) include_comments r
                    (snd (Scraper.run_search_scrape b target include_comments))).
Proof.
  split; [ | split ]; intros r H; unfold list_result_ok.
  - unfold Scraper.run_channel_scrape in *.
    winv H u Hu E1. winv H videos Hv E2. winv H vf Hvf E3. winv H fs Hfs E4.
    winv H u' Hu' E5. rewrite E1, E2, E3, E4, E5. clear E1 E2 E3 E4 E5.
    cbn in H. injection H as <-. unfold Scraper.call in Hv. cbn [fst] in Hv.
    exists videos. cbn beta. rewrite !count_app. comments_part Hfs.
    rewrite Hg, Hs, Hsv.
    cbn. repeat split; try done; lia.
  - unfold Scraper.run_playlist_scrape in *.
    winv H u Hu E1. winv H videos Hv E2. winv H vf Hvf E3. winv H fs Hfs E4.
    winv H u' Hu' E5. rewrite E1, E2, E3, E4, E5. clear E1 E2 E3 E4 E5.
    cbn in H. injection H as <-. unfold Scraper.call in Hv. cbn [fst] in Hv.
    exists videos. cbn beta. rewrite !count_app. comments_part Hfs.
    rewrite Hg, Hs, Hsv.
    cbn. repeat split; try done; lia.
  - unfold Scraper.run_search_scrape in *.
    winv H u Hu E1. winv H videos Hv E2. winv H fn Hfn E3. winv H vf Hvf E4.
    winv H fs Hfs E5. winv H u' Hu' E6. rewrite E1, E2, E3, E4, E5, E6.
    clear E1 E2 E3 E4 E5 E6.
    cbn in H. injection H as <-. unfold Scraper.call in Hv. cbn [fst] in Hv.
    exists videos. cbn beta. rewrite !count_app. comments_part Hfs.
    rewrite Hg, Hs, Hsv.
    destruct target as [q | ]; [ | discriminate ]. cbn. repeat split; try done; lia.
Qed.

Lemma list_scrapes_results_witness :
  list_result_ok Scraper.demo_backend
    (Scraper.get_channel_videos Scraper.demo_backend (Some "UC1")) true
    (Scraper.mkListResult (Some "UC1") 3 "videos/channel_UC1_videos"
       ["comments/video_a_comments"; "comments/video_c_comments"])
    (snd (Scraper.run_channel_scrape Scraper.demo_backend (Some "UC1") true)).
Proof.
  apply (proj1 (list_scrapes_results Scraper.demo_backend (Some "UC1") true)).
  reflexivity.
Defined.

(** X24.  A search scrape without a query gets as far as the search
    itself: once [search_videos] has returned, building the file name
    fails on [None.replace]; the call raises [AttributeError], nothing
    was saved and no completion is logged. *)
Theorem run_search_scrape_without_query (b : Scraper.Backend)
    (include_comments : bool) (videos : list string) :
  Scraper.search_videos b None = Ret videos ->
  Scraper.run_search_scrape b None include_comments =
  (Raise (Exn AttributeError "'NoneType' object has no attribute 'replace'"),
   [Scraper.SLog INFO "Starting search scrape for 'None'";
    Scraper.GetVideos SearchFetch None]).
Proof.
  intros Hv. unfold Scraper.run_search_scrape, Scraper.wbind, Scraper.call, Scraper.tell.
  rewrite Hv. reflexivity.
Qed.

Lemma run_search_scrape_without_query_witness :
  Scraper.run_search_scrape Scraper.demo_backend None true =
  (Raise (Exn AttributeError "'NoneType' object has no attribute 'replace'"),
   [Scraper.SLog INFO "Starting search scrape for 'None'";
    Scraper.GetVideos SearchFetch None]).
Proof.
  apply (run_search_scrape_without_query Scraper.demo_backend true ["a"]).
  reflexivity.
Defined.

(** X25.  The scheduler over the scraper: a search job that was stored
    without a query fails in the same way at every run, and all that is
    seen of it is one line in the log; the wrapper returns, so the worker
    reports the run as executed. *)
Theorem search_job_without_query_only_logs (env : Env) (b : Scraper.Backend)
    (show_video : Scraper.VideoResult -> string)
    (show_list : Scraper.ListResult -> string)
    (include_comments : bool) (videos : list string) (s : State) :
  env_scraper env = scraper_of b show_video show_list ->
  Scraper.search_videos b None = Ret videos ->
  _run_search_scrape env None include_comments s =
  (Ret tt,
   set_trace
     (trace s ++
      [Log INFO "Running search scrape for 'None'";
       Fetch SearchFetch None include_comments
             (Raise (Exn AttributeError "'NoneType' object has no attribute 'replace'"));
       Log ERROR ("Error in search scrape for 'None': " +:+
                  "'NoneType' object has no attribute 'replace'")]) s).
Proof.
  intros Henv Hv. rewrite run_search_scrape_result. cbn zeta. rewrite Henv.
  cbn [scraper_of].
  assert (E : Scraper.run_search_scrape b None include_comments =
              (Raise (Exn AttributeError "'NoneType' object has no attribute 'replace'"),
               [Scraper.SLog INFO "Starting search scrape for 'None'";
                Scraper.GetVideos SearchFetch None])).
  { unfold Scraper.run_search_scrape, Scraper.wbind, Scraper.call, Scraper.tell.
    rewrite Hv. reflexivity. }
  rewrite E. reflexivity.
Qed.

Lemma search_job_without_query_only_logs_witness :
  let env := mkEnv (scraper_of Scraper.demo_backend (fun _ => "{...}") (fun _ => "{...}"))
                   (fun _ => None) (fun _ _ _ => None) (fun _ _ => "20240101000000")
                   (fun _ => "trigger") in
  _run_search_scrape env None false (_setup_scheduler ∅) =
  (Ret tt,
   set_trace
     (trace (_setup_scheduler ∅) ++
      [Log INFO "Running search scrape for 'None'";
       Fetch SearchFetch None false
             (Raise (Exn AttributeError "'NoneType' object has no attribute 'replace'"));
       Log ERROR ("Error in search scrape for 'None': " +:+
                  "'NoneType' object has no attribute 'replace'")]) (_setup_scheduler ∅)).
Proof.
  intros env.
  apply (search_job_without_query_only_logs env Scraper.demo_backend
           (fun _ => "{...}") (fun _ => "{...}") false ["a"] (_setup_scheduler ∅)).
  - reflexivity.
  - reflexivity.
Defined.
(* ===================================================================== *)
(** ** Retrying on the rate limit *)
(* ===================================================================== *)

Lemma wrapper_from_bounds {A} (name : string) (func : nat -> Utils.attempt A)
    (left n : nat) :
  let es := snd (Utils.wrapper_from name func left n) in
  Utils.calls es = seq n (length (Utils.calls es)) /\
  (length (Utils.calls es) <= left)%nat /\
  Utils.sleeps es = map (fun k => 2 ^ S k)%nat (seq n (length (Utils.sleeps es))) /\
  (length (Utils.sleeps es) <= length (Utils.calls es))%nat.
Proof.
  cbn zeta. revert n. induction left as [ | left IH]; intros n.
  - cbn. repeat split; lia.
  - cbn [Utils.wrapper_from].
    destruct (func n) as [a | status msg | e | ].
    + cbn. repeat split; lia.
    + destruct (Utils.rate_limited status).
      * cbn [snd pred]. destruct (IH (S n)) as (Hc & Hlc & Hs & Hls).
        set (rest := snd (Utils.wrapper_from name func left (S n))) in *.
        change (Utils.calls (_ ++ rest)) with (n :: Utils.calls rest).
        change (Utils.sleeps (_ ++ rest)) with ((2 ^ S n)%nat :: Utils.sleeps rest).
        cbn [length seq map]. rewrite <- Hc, <- Hs. repeat split; lia.
      * cbn. repeat split; lia.
    + destruct (is_Exception (exn_class e)); cbn; repeat split; lia.
    + cbn. repeat split; lia.
Qed.

(** X26.  However the decorated function behaves, the wrapper calls it at
    most three times, one call after the other; it sleeps only after a
    call, for 2, 4 and 8 seconds in that order, so for no more than 14
    seconds in all. *)
Theorem handle_rate_limit_is_bounded {A} (name : string)
    (func : nat -> Utils.attempt A) :
  let es := snd (Utils.handle_rate_limit name func) in
  (length (Utils.calls es) <= 3)%nat /\
  Utils.calls es = seq 0 (length (Utils.calls es)) /\
  (exists n, (n <= length (Utils.calls es))%nat /\ Utils.sleeps es = take n [2; 4; 8]%nat) /\
  (list_sum (Utils.sleeps es) <= 14)%nat.
Proof.
  cbn zeta. unfold Utils.handle_rate_limit, Utils.max_retries.
  destruct (wrapper_from_bounds name func 3 0) as (Hc & Hlc & Hs & Hls).
  cbn zeta in *. split; [ exact Hlc | ]. split; [ exact Hc | ].
  set (ss := Utils.sleeps _) in *. set (cs := Utils.calls _) in *.
  assert (Hn : (length ss <= 3)%nat) by lia.
  split.
  - exists (length ss). split; [ lia | ]. rewrite Hs.
    destruct (length ss) as [ | [ | [ | [ | n]]]]; try reflexivity. lia.
  - rewrite Hs. destruct (length ss) as [ | [ | [ | [ | n]]]]; cbn; lia.
Qed.

(** The wrapper after [m] calls in a row that hit the rate limit. *)
Lemma wrapper_from_retries {A} (name : string) (func : nat -> Utils.attempt A)
    (m left n : nat) :
  (forall k, (n <= k < n + m)%nat -> Utils.hits_limit (func k) = true) ->
  Utils.wrapper_from name func (m + left) n =
  (fst (Utils.wrapper_from name func left (n + m)),
   concat (map Utils.retry_events (seq n m)) ++
   snd (Utils.wrapper_from name func left (n + m))).
Proof.
  revert n. induction m as [ | m IH]; intros n Hlim.
  - cbn. rewrite Nat.add_0_r. by destruct (Utils.wrapper_from name func left n).
  - cbn [Nat.add Utils.wrapper_from].
    pose proof (Hlim n ltac:(lia)) as Hn. unfold Utils.hits_limit in Hn.
    destruct (func n) as [a | status msg | e | ]; try discriminate.
    rewrite Hn. cbn zeta. rewrite IH by (intros k Hk; apply Hlim; lia).
    cbn [fst snd pred seq map concat]. replace (S n + m)%nat with (n + S m)%nat by lia.
    unfold Utils.retry_events at 2. cbn [app]. reflexivity.
Qed.

(** X27.  When all three calls hit the rate limit (status 403 or 429) the
    wrapper gives up with an [Exception] of its own, "Max retries
    exceeded": by then it has slept 2, 4 and 8 seconds, the last 8 of
    them after the final call, with no call to follow. *)
Theorem handle_rate_limit_gives_up {A} (name : string)
    (func : nat -> Utils.attempt A) :
  Utils.limited_until func 3 ->
  Utils.handle_rate_limit name func =
  (Utils.Raised (Exn OtherException ("Max retries exceeded for " +:+ name)),
   Utils.retry_events 0 ++ Utils.retry_events 1 ++ Utils.retry_events 2 ++
   [Utils.ULog ERROR ("Max retries exceeded for " +:+ name)]).
Proof.
  intros Hlim. unfold Utils.handle_rate_limit, Utils.max_retries.
  pose proof (wrapper_from_retries name func 3 0 0) as E. cbn [Nat.add] in E.
  rewrite E by (intros k Hk; apply Hlim; lia).
  cbn. reflexivity.
Qed.

Lemma handle_rate_limit_gives_up_witness :
  Utils.handle_rate_limit "search" (fun _ => Utils.HttpError 429 "quota" : Utils.attempt unit) =
  (Utils.Raised (Exn OtherException ("Max retries exceeded for " +:+ "search")),
   Utils.retry_events 0 ++ Utils.retry_events 1 ++ Utils.retry_events 2 ++
   [Utils.ULog ERROR ("Max retries exceeded for " +:+ "search")]).
Proof.
  apply (handle_rate_limit_gives_up "search" (fun _ => Utils.HttpError 429 "quota")).
  intros k Hk. reflexivity.
Defined.

Lemma retry_events_read n m rest :
  Utils.calls (concat (map Utils.retry_events (seq n m)) ++ rest) =
    seq n m ++ Utils.calls rest /\
  Utils.sleeps (concat (map Utils.retry_events (seq n m)) ++ rest) =
    map (fun j => 2 ^ S j)%nat (seq n m) ++ Utils.sleeps rest.
Proof.
  revert n. induction m as [ | m IH]; intros n; [ done | ].
  cbn [seq map concat]. destruct (IH (S n)) as [Hc Hs].
  set (tail := concat (map Utils.retry_events (seq (S n) m)) ++ rest) in *.
  change (Utils.calls ((Utils.retry_events n ++ _) ++ rest))
    with (n :: Utils.calls tail).
  change (Utils.sleeps ((Utils.retry_events n ++ _) ++ rest))
    with ((2 ^ S n)%nat :: Utils.sleeps tail).
  rewrite Hc, Hs. done.
Qed.

(** X28.  The first call that does not hit the rate limit decides: what
    it returns is returned and what it raises is raised again, unchanged
    (an [HttpError] with another status included), after one sleep of 2,
    then 4 seconds for each call before it, and no call is made after
    it. *)
Theorem handle_rate_limit_first_answer {A} (name : string)
    (func : nat -> Utils.attempt A) (k : nat) :
  (k < 3)%nat ->
  Utils.limited_until func k ->
  Utils.hits_limit (func k) = false ->
  let r := Utils.handle_rate_limit name func in
  fst r = Utils.passed_on (func k) /\
  Utils.calls (snd r) = seq 0 (S k) /\
  Utils.sleeps (snd r) = take k [2; 4; 8]%nat.
Proof.
  intros Hk Hlim Hno. cbn zeta. unfold Utils.handle_rate_limit, Utils.max_retries.
  pose proof (wrapper_from_retries name func k (S (2 - k)) 0) as E.
  replace (k + S (2 - k))%nat with 3%nat in E by lia.
  rewrite E by (intros j Hj; apply Hlim; lia). clear E.
  cbn [fst snd Nat.add Utils.wrapper_from]. unfold Utils.hits_limit in Hno.
  assert (Htake : map (fun j => 2 ^ S j)%nat (seq 0 k) = take k [2; 4; 8]%nat).
  { clear -Hk. destruct k as [ | [ | [ | k]]]; try reflexivity. lia. }
  assert (Hone : forall (x : Utils.result A) es,
            Utils.calls es = [k] -> Utils.sleeps es = [] ->
            Utils.calls (concat (map Utils.retry_events (seq 0 k)) ++ snd (x, es)) =
              seq 0 (S k) /\
            Utils.sleeps (concat (map Utils.retry_events (seq 0 k)) ++ snd (x, es)) =
              take k [2; 4; 8]%nat).
  { intros x es Hc Hs. cbn [snd]. destruct (retry_events_read 0 k es) as [-> ->].
    rewrite Hc, Hs, app_nil_r, Htake. split; [ | done ]. by rewrite seq_S. }
  destruct (func k) as [a | status msg | e | ]; cbn [Utils.passed_on].
  - split; [ done | ]. by apply Hone.
  - rewrite Hno. split; [ done | ]. by apply Hone.
  - destruct (is_Exception (exn_class e)); (split; [ done | ]); by apply Hone.
  - split; [ done | ]. by apply Hone.
Qed.

Lemma handle_rate_limit_first_answer_witness :
  let func := fun k : nat =>
    match k with
    | O => Utils.HttpError 403 "quota"
    | S O => Utils.HttpError 500 "backend error"
    | _ => Utils.Returns "ok"
    end in
  let r := Utils.handle_rate_limit "search" func in
  fst r = Utils.passed_on (func 1%nat) /\
  Utils.calls (snd r) = seq 0 2 /\
  Utils.sleeps (snd r) = take 1 [2; 4; 8]%nat.
Proof.
  intros func.
  apply (handle_rate_limit_first_answer "search" func 1).
  - lia.
  - intros k Hk. assert (k = 0%nat) as -> by lia. reflexivity.
  - reflexivity.
Defined.
(* ===================================================================== *)
(** ** Saving *)
(* ===================================================================== *)

Lemma app_ends_with p s suffix : Saving.ends_with suffix s -> Saving.ends_with suffix (p +:+ s).
Proof.
  intros [q ->]. exists (p +:+ q). unfold String.app.
  induction p as [ | c p IH]; cbn; [ done | ]. f_equal. exact IH.
Qed.

Lemma path_join_ends_with a b suffix :
  Saving.ends_with suffix b -> Saving.ends_with suffix (Saving.path_join a b).
Proof.
  intros H. unfold Saving.path_join.
  destruct (Saving.starts_with_slash b); [ done | ].
  destruct (_ || _); repeat apply app_ends_with; done.
Qed.

Lemma ends_with_nonempty suffix s :
  suffix <> "" -> Saving.ends_with suffix s -> s <> "".
Proof.
  intros Hne [p ->]. destruct p; [ done | discriminate ].
Qed.

(** X29.  A call of [save_data] that returns has created the directory
    of the data type and, for the format [json] or [csv] in any
    capitals, written one file there and returned its path, which ends in
    [.json] or [.csv]; for any other format it has written nothing,
    logged the format as unsupported and returned the empty string.  So
    the empty string is returned exactly when nothing was written. *)
Theorem save_data_result (output_dir output_format timestamp : string)
    (io : Saving.fevent -> option exn) (filename data_type path : string) :
  let r := Saving.save_data output_dir output_format timestamp io filename data_type in
  fst r = Ret path ->
  Saving.MakeDirs (Saving.path_join output_dir data_type) ∈ snd r /\
  (if Saving.supported output_format
   then Saving.written (snd r) = [path] /\
        (Saving.ends_with ".json" path \/ Saving.ends_with ".csv" path)
   else Saving.written (snd r) = [] /\ path = "" /\
        Saving.FLog ERROR ("Unsupported output format: " +:+ output_format) ∈ snd r) /\
  (path = "" <-> Saving.supported output_format = false).
Proof.
  cbn zeta. unfold Saving.save_data, Saving.supported.
  destruct (io (Saving.MakeDirs _)) as [e | ]; [ discriminate | ].
  destruct (String.eqb (Saving.lower output_format) "json").
  - destruct (io (Saving.WriteJson _)) as [e | ]; [ discriminate | ].
    cbn. intros [= <-].
    assert (He : Saving.ends_with ".json"
                   (Saving.path_join (Saving.path_join output_dir data_type)
                      ((filename +:+ "_" +:+ timestamp) +:+ ".json"))).
    { apply path_join_ends_with. by exists (filename +:+ "_" +:+ timestamp). }
    split; [ set_solver | ]. split; [ split; [ done | left; exact He ] | ].
    split; [ | done ]. intros Hp. by apply (ends_with_nonempty ".json") in He.
  - destruct (String.eqb (Saving.lower output_format) "csv").
    + destruct (io (Saving.WriteCsv _)) as [e | ]; [ discriminate | ].
      cbn. intros [= <-].
      assert (He : Saving.ends_with ".csv"
                     (Saving.path_join (Saving.path_join output_dir data_type)
                        ((filename +:+ "_" +:+ timestamp) +:+ ".csv"))).
      { apply path_join_ends_with. by exists (filename +:+ "_" +:+ timestamp). }
      split; [ set_solver | ]. split; [ split; [ done | right; exact He ] | ].
      split; [ | done ]. intros Hp. by apply (ends_with_nonempty ".csv") in He.
    + cbn. intros [= <-]. split; [ set_solver | ]. split; [ | done ].
      split; [ done | ]. split; [ done | set_solver ].
Qed.

Lemma save_data_result_witness :
  let r := Saving.save_data "data" "JSON" "20240101_000000" (fun _ => None)
                            "video_abc_info" "videos" in
  Saving.MakeDirs (Saving.path_join "data" "videos") ∈ snd r /\
  (if Saving.supported "JSON"
   then Saving.written (snd r) = ["data/videos/video_abc_info_20240101_000000.json"] /\
        (Saving.ends_with ".json" "data/videos/video_abc_info_20240101_000000.json" \/
         Saving.ends_with ".csv" "data/videos/video_abc_info_20240101_000000.json")
   else Saving.written (snd r) = [] /\
        "data/videos/video_abc_info_20240101_000000.json" = "" /\
        Saving.FLog ERROR ("Unsupported output format: " +:+ "JSON") ∈ snd r) /\
  ("data/videos/video_abc_info_20240101_000000.json" = "" <->
   Saving.supported "JSON" = false).
Proof.
  intros r.
  apply (save_data_result "data" "JSON" "20240101_000000" (fun _ => None)
           "video_abc_info" "videos" "data/videos/video_abc_info_20240101_000000.json").
  reflexivity.
Defined.


